(** * Dependency-graph construction and rendering

    A shallow embedding of [graph-based/11-visualize-graph.py]:
    [build_dependency_graph] turns one CoNLL-U sentence into a NetworkX
    [DiGraph]; [visualize_graph] lays the graph out, draws it with
    Matplotlib, saves the picture and shows it.

    Python objects are mutable and passed by reference, so graphs live in an
    explicit heap and the functions run in a state-and-exception monad.  The
    dictionaries of NetworkX ([_node], [_succ], [_pred], attribute
    dictionaries) are finite maps. *)

From Stdlib Require Import ZArith QArith.
From stdpp Require Import gmap strings pretty list fin_maps.

#[local] Set Warnings "-clear-no-such-hyp".

Local Open Scope string_scope.
Local Open Scope Z_scope.
Local Open Scope list_scope.
Local Open Scope stdpp_scope.

(** ** Exceptions and the state-and-exception monad *)

(** The exceptions the claims speak about or the calls below can raise.
    [InvalidInput] is the error of the specification's taxonomy; no
    statement of the program raises it. *)
Inductive Exn :=
| InvalidInput (msg : string)
| OSError (strerror : string)
| KeyError (key : Z)
| NetworkXError (n : Z).

Inductive Result (A : Type) :=
| Ok (a : A)
| Raise (e : Exn).
Arguments Ok {A} a.
Arguments Raise {A} e.

Definition M (S A : Type) : Type := S → Result A * S.

#[export] Instance M_ret {S} : MRet (M S) := λ A a s, (Ok a, s).

#[export] Instance M_bind {S} : MBind (M S) := λ A B k m s,
  match m s with
  | (Ok a, s') => k a s'
  | (Raise e, s') => (Raise e, s')
  end.

Definition raise {S A} (e : Exn) : M S A := λ s, (Raise e, s).

Definition modify {S} (f : S → S) : M S unit := λ s, (Ok tt, f s).

(** [try: body except Exception as e: handler(e); raise] *)
Definition try_except_reraise {S A} (body : M S A) (handler : Exn → M S unit)
    : M S A :=
  λ s, match body s with
       | (Ok a, s') => (Ok a, s')
       | (Raise e, s') =>
           match handler e s' with
           | (Ok _, s'') => (Raise e, s'')
           | (Raise e', s'') => (Raise e', s'')
           end
       end.

(** [for x in xs: body(x)] *)
Fixpoint for_each {S A} (xs : list A) (body : A → M S unit) : M S unit :=
  match xs with
  | [] => mret tt
  | x :: xs' => body x;; for_each xs' body
  end.

(** ** Tokens *)

(** A [conllu] token is a dictionary; the builder reads its keys ['id'],
    ['form'], ['upos'], ['head'] and ['deprel'].  The id of a word is an
    integer; [head] is an integer, or [None] when the column is blank. *)
Record Token := {
  tok_id : Z;
  tok_form : string;
  tok_upos : string;
  tok_head : option Z;
  tok_deprel : string;
}.

(** ** NetworkX directed graphs *)

(** An attribute dictionary, e.g. [{'label': 'run/VERB'}]. *)
Abbreviation Attrs := (gmap string string).

(** [nx.DiGraph]: node attributes, successor and predecessor adjacency. *)
Record DiGraph := {
  node : gmap Z Attrs;
  succ : gmap Z (gmap Z Attrs);
  pred : gmap Z (gmap Z Attrs);
}.

(** [nx.DiGraph()] *)
Definition DiGraph_empty : DiGraph := {| node := ∅; succ := ∅; pred := ∅ |}.

(** The first half of [add_node] and of [add_edge]: a node that is not yet a
    key of [_succ] gets empty adjacency and attribute dictionaries. *)
Definition touch (n : Z) (G : DiGraph) : DiGraph :=
  match succ G !! n with
  | Some _ => G
  | None => {| node := <[n := ∅]> (node G);
               succ := <[n := ∅]> (succ G);
               pred := <[n := ∅]> (pred G) |}
  end.

(** [G.add_node(n, **attr)]: create the node if it is new, then update its
    attribute dictionary with [attr] (new values win). *)
Definition add_node (n : Z) (attr : Attrs) (G : DiGraph) : DiGraph :=
  let G' := touch n G in
  {| node := alter (λ d, attr ∪ d) n (node G');
     succ := succ G';
     pred := pred G' |}.

(** [G.add_edge(u, v, **attr)]: create the end points that are new, then
    store the (updated) attribute dictionary of the edge under [_succ[u][v]]
    and [_pred[v][u]]. *)
Definition add_edge (u v : Z) (attr : Attrs) (G : DiGraph) : DiGraph :=
  let G' := touch v (touch u G) in
  let datadict := attr ∪ default ∅ (succ G' !! u ≫= (.!! v)) in
  {| node := node G';
     succ := alter (λ nbrs, <[v := datadict]> nbrs) u (succ G');
     pred := alter (λ nbrs, <[u := datadict]> nbrs) v (pred G') |}.

(** [G.edges(data=True)]: every [(u, v)] with its attribute dictionary. *)
Definition edges (G : DiGraph) : gmap (Z * Z) Attrs := map_uncurry (M12 := gmap (Z * Z)) (succ G).

(** [G.number_of_nodes()] and [G.number_of_edges()] *)
Definition number_of_nodes (G : DiGraph) : nat := size (node G).
Definition number_of_edges (G : DiGraph) : nat := size (edges G).

(** [G.in_degree(v)]: the length of [_pred[v]]. *)
Definition in_degree (G : DiGraph) (v : Z) : nat :=
  size (default ∅ (pred G !! v)).

(** ** The graph builder *)

(** The heap of graph objects; a reference is an index into it. *)
Abbreviation Heap := (list DiGraph).

Definition new_DiGraph : M Heap nat :=
  λ h, (Ok (List.length h), h ++ [DiGraph_empty]).

Definition G_add_node (G : nat) (n : Z) (attr : Attrs) : M Heap unit :=
  modify (alter (add_node n attr) G).

Definition G_add_edge (G : nat) (u v : Z) (attr : Attrs) : M Heap unit :=
  modify (alter (add_edge u v attr) G).

(** The node label [f"{word}/{pos}"]. *)
Definition node_label (token : Token) : string :=
  String.append (tok_form token) (String.append "/" (tok_upos token)).

(** [head is not None and head != 0] *)
Definition has_governor (token : Token) : bool :=
  match tok_head token with
  | Some head => negb (head =? 0)
  | None => false
  end.

Definition build_dependency_graph (sentence : list Token) : M Heap nat :=
  G ← new_DiGraph;
  for_each sentence (λ token,
    let token_id := tok_id token in
    let head := tok_head token in
    let deprel := tok_deprel token in
    G_add_node G token_id {[ "label" := node_label token ]};;
    match head with
    | Some head =>
        if negb (head =? 0)
        then G_add_edge G head token_id {[ "label" := deprel ]}
        else mret tt
    | None => mret tt
    end);;
  mret G.

(** The same loop on a graph value: one iteration, and the whole fold. *)
Definition build_step (G : DiGraph) (token : Token) : DiGraph :=
  let G1 := add_node (tok_id token) {[ "label" := node_label token ]} G in
  match tok_head token with
  | Some head =>
      if negb (head =? 0)
      then add_edge head (tok_id token) {[ "label" := tok_deprel token ]} G1
      else G1
  | None => G1
  end.

Definition build_graph (sentence : list Token) : DiGraph :=
  foldl build_step DiGraph_empty sentence.

Definition mk (i : Z) (f p : string) (h : option Z) (r : string) : Token :=
  {| tok_id := i; tok_form := f; tok_upos := p; tok_head := h; tok_deprel := r |}.

Definition dogs_run : list Token :=
  [ mk 1 "Dogs" "NOUN" (Some 2) "nsubj"; mk 2 "run" "VERB" (Some 0) "root" ].

Definition dangling : list Token := [ mk 1 "X" "NOUN" (Some 99) "dep" ].

(** ** Adjacency dictionaries *)

(** [m[u][v]] when both keys are present. *)
Definition adj (m : gmap Z (gmap Z Attrs)) (u v : Z) : option Attrs :=
  m !! u ≫= (.!! v).

(** ** Well-formed graphs

    The three dictionaries of a [DiGraph] have the same keys, and [_pred] is
    the mirror image of [_succ]. *)
Record wf (G : DiGraph) : Prop := {
  wf_succ : dom (succ G) = dom (node G);
  wf_pred : dom (pred G) = dom (node G);
  wf_mirror : ∀ u v, adj (pred G) v u = adj (succ G) u v;
}.

(** ** Governors *)

(** The governor of a token: its head when that is present and not [0]. *)
Definition governor (token : Token) : option Z :=
  match tok_head token with
  | Some head => if negb (head =? 0) then Some head else None
  | None => None
  end.

Definition node_attrs (token : Token) : Attrs := {[ "label" := node_label token ]}.
Definition edge_attrs (token : Token) : Attrs := {[ "label" := tok_deprel token ]}.

(** ** The graph of a whole sentence *)

Definition ids (sentence : list Token) : list Z := tok_id <$> sentence.

(** The heads that are real governor references. *)
Definition governors (sentence : list Token) : list Z := omap governor sentence.

(** ** The renderer: paths, figures and the world *)

(** [os.path.join(a, b)] of [posixpath]. *)
Definition sep : Ascii.ascii := Ascii.Ascii true true true true false true false false.

Definition startswith_sep (s : string) : bool :=
  match s with
  | String c _ => Ascii.eqb c sep
  | EmptyString => false
  end.

Fixpoint endswith_sep (s : string) : bool :=
  match s with
  | EmptyString => false
  | String c EmptyString => Ascii.eqb c sep
  | String _ s' => endswith_sep s'
  end.

Definition os_path_join (a b : string) : string :=
  if startswith_sep b then b
  else if (String.length a =? 0)%nat || endswith_sep a then a +:+ b
  else a +:+ "/" +:+ b.

(** [p[:i], p[i:]] for [i = p.rfind('/') + 1]. *)
Fixpoint rsplit_sep (p : string) : string * string :=
  match p with
  | EmptyString => (EmptyString, EmptyString)
  | String c p' =>
      let (head, tail) := rsplit_sep p' in
      match head with
      | EmptyString =>
          if Ascii.eqb c sep then (String c EmptyString, tail)
          else (EmptyString, String c tail)
      | String _ _ => (String c head, tail)
      end
  end.

(** [s.rstrip('/')] *)
Fixpoint rstrip_sep (s : string) : string :=
  match s with
  | EmptyString => EmptyString
  | String c s' =>
      match rstrip_sep s' with
      | EmptyString => if Ascii.eqb c sep then EmptyString else String c EmptyString
      | String _ _ as stripped => String c stripped
      end
  end.

(** [os.path.split(p)] of [posixpath]: the head loses its trailing
    slashes unless it consists of slashes only. *)
Definition os_path_split (p : string) : string * string :=
  let (head, tail) := rsplit_sep p in
  (match rstrip_sep head with
   | EmptyString => head
   | String _ _ as stripped => stripped
   end, tail).

(** The directory [os.makedirs(name)] looks at before it makes [name]: the
    head of [name], split once more when [name] ends in a slash, if both
    head and tail are not empty.  Paths are taken as they are written:
    ['.'] and ['..'] are names like any other. *)
Definition makedirs_parent (name : string) : option string :=
  let (head, tail) := os_path_split name in
  let (head, tail) :=
    match tail with
    | EmptyString => os_path_split head
    | String _ _ => (head, tail)
    end in
  match head, tail with
  | String _ _, String _ _ => Some head
  | _, _ => None
  end.

(** [get_node_attributes(G, name)] and [get_edge_attributes(G, name)]: the
    entries whose attribute dictionary has the key. *)
Definition get_node_attributes (G : DiGraph) (name : string) : gmap Z string :=
  omap (.!! name) (node G).

Definition get_edge_attributes (G : DiGraph) (name : string) : gmap (Z * Z) string :=
  omap (.!! name) (edges G).

(** The first key of a list that has no value, or all the values. *)
Fixpoint collect {A B} (f : A → option B) (l : list A) : A + list B :=
  match l with
  | [] => inr []
  | a :: l' =>
      match f a with
      | None => inl a
      | Some b =>
          match collect f l' with
          | inl a' => inl a'
          | inr bs => inr (b :: bs)
          end
      end
  end.

Inductive LogLevel := INFO | ERROR.

Section Renderer.
(** A point of the plane is a pair of floats and the layout draws its
    initial placement from NumPy's global generator.  Both stay abstract,
    as does the numeric core of [spring_layout]: for a graph, a spring
    constant, an iteration count and a generator state it gives every
    node its point, and the next generator state. *)
Context {Pos Rng : Type}.
Variable fruchterman_reingold : DiGraph → Q → nat → Rng → (Z → Pos) * Rng.
Variable center : Pos.

(** What the drawing calls put on the axes. *)
Inductive Artist :=
| NodeMarker (n : Z) (xy : Pos) (node_color : string) (node_size : nat)
| Arrow (u v : Z) (src dst : Pos) (arrowstyle : string) (arrowsize : nat)
| NodeText (n : Z) (xy : Pos) (text : string) (font_size : nat)
| EdgeText (u v : Z) (src dst : Pos) (text : string) (font_size : nat).

Record Figure := {
  figsize : nat * nat;
  artists : list Artist;
  title : option string;
  axis_on : bool;
  tight : bool;
}.

Record SavedImage := {
  img_figure : Figure;
  img_format : string;
  img_dpi : nat;
}.

(** The world outside the graph: the file system ([os_refuses] holds the
    paths at which the operating system refuses to create a directory or
    write a file, with its error text), the screen, the figures pyplot has
    open (the current one first), the log and the global generator. *)
Record World := {
  fs_dirs : gset string;
  fs_files : gmap string SavedImage;
  os_refuses : gmap string string;
  screen : list Figure;
  figures : list Figure;
  log : list (LogLevel * string);
  rng : Rng;
}.

Definition set_dirs (f : gset string → gset string) (w : World) : World :=
  {| fs_dirs := f (fs_dirs w); fs_files := fs_files w; os_refuses := os_refuses w;
     screen := screen w; figures := figures w; log := log w; rng := rng w |}.

Definition set_files (f : gmap string SavedImage → gmap string SavedImage)
    (w : World) : World :=
  {| fs_dirs := fs_dirs w; fs_files := f (fs_files w); os_refuses := os_refuses w;
     screen := screen w; figures := figures w; log := log w; rng := rng w |}.

Definition set_screen (f : list Figure → list Figure) (w : World) : World :=
  {| fs_dirs := fs_dirs w; fs_files := fs_files w; os_refuses := os_refuses w;
     screen := f (screen w); figures := figures w; log := log w; rng := rng w |}.

Definition set_rng (r : Rng) (w : World) : World :=
  {| fs_dirs := fs_dirs w; fs_files := fs_files w; os_refuses := os_refuses w;
     screen := screen w; figures := figures w; log := log w; rng := r |}.

Definition set_figures (f : list Figure → list Figure) (w : World) : World :=
  {| fs_dirs := fs_dirs w; fs_files := fs_files w; os_refuses := os_refuses w;
     screen := screen w; figures := f (figures w); log := log w; rng := rng w |}.

Definition set_log (f : list (LogLevel * string) → list (LogLevel * string))
    (w : World) : World :=
  {| fs_dirs := fs_dirs w; fs_files := fs_files w; os_refuses := os_refuses w;
     screen := screen w; figures := figures w; log := f (log w); rng := rng w |}.

(** [str(e)] *)
Definition str (e : Exn) : string :=
  match e with
  | InvalidInput msg => msg
  | OSError strerror => strerror
  | KeyError key => pretty key
  | NetworkXError n => "Node " +:+ pretty n +:+ " has no position."
  end.

(** The error of a path the operating system refuses.  A path below a
    refused directory is refused with it, the highest refusal deciding; the
    empty path never names a directory or a file. *)
Fixpoint refused (fuel : nat) (path : string) (w : World) : option string :=
  match fuel, makedirs_parent path with
  | S fuel', Some head =>
      match refused fuel' head w with
      | Some strerror => Some strerror
      | None => os_refuses w !! path
      end
  | _, _ => os_refuses w !! path
  end.

Definition refusal (path : string) (w : World) : option string :=
  if (String.length path =? 0)%nat
  then Some "[Errno 2] No such file or directory: ''"
  else refused (String.length path) path w.

(** [os.path.exists(path)] as the renderer's world sees it. *)
Definition path_exists (path : string) (w : World) : bool :=
  bool_decide (path ∈ fs_dirs w) || bool_decide (is_Some (fs_files w !! path)).

Definition os_path_exists_world (path : string) : M World bool :=
  λ w, (Ok (path_exists path w), w).

(** [os.mkdir(name)] inside [os.makedirs(.., exist_ok=True)]: a directory
    that is there already is accepted. *)
Definition os_mkdir (name : string) : M World unit := λ w,
  match refusal name w with
  | Some strerror => (Raise (OSError strerror), w)
  | None => (Ok tt, set_dirs (λ dirs, {[name]} ∪ dirs) w)
  end.

(** [os.makedirs(name, exist_ok=True)]: when the directory above [name]
    does not exist it is made first, by the same function; then [name] is
    made.  An error in between leaves what has been made so far.  The
    length of [name] bounds the depth of the recursion. *)
Fixpoint makedirs (fuel : nat) (name : string) : M World unit :=
  match fuel, makedirs_parent name with
  | S fuel', Some head =>
      found ← os_path_exists_world head;
      (if negb found then makedirs fuel' head else mret tt);;
      os_mkdir name
  | _, _ => os_mkdir name
  end.

Definition os_makedirs (path : string) : M World unit :=
  makedirs (String.length path) path.

(** The directories [os.makedirs(name)] sets out to make, from the top:
    the missing ones above [name], then [name]. *)
Fixpoint makedirs_chain (fuel : nat) (name : string) (w : World) : list string :=
  match fuel, makedirs_parent name with
  | S fuel', Some head =>
      (if path_exists head w then [] else makedirs_chain fuel' head w) ++ [name]
  | _, _ => [name]
  end.

Definition makedirs_creates (name : string) (w : World) : list string :=
  makedirs_chain (String.length name) name w.

(** Those of them that are made before the first refusal. *)
Definition makedirs_keeps (name : string) (w : World) : list string :=
  filter (λ dir, refusal dir w = None) (makedirs_creates name w).

(** [nx.spring_layout(G, k=k, iterations=iterations)], no seed given: the
    empty graph gets the empty dictionary, a single node the centre, and
    larger graphs the points of the numeric core, which uses and advances
    the global generator. *)
Definition spring_layout (G : DiGraph) (k : Q) (iterations : nat)
    : M World (gmap Z Pos) := λ w,
  match size (node G) with
  | O => (Ok ∅, w)
  | S O => (Ok ((λ _, center) <$> node G), w)
  | _ =>
      let (xy, rng') := fruchterman_reingold G k iterations (rng w) in
      (Ok (map_imap (λ n _, Some (xy n)) (node G)), set_rng rng' w)
  end.

Definition new_figure (size : nat * nat) : Figure :=
  {| figsize := size; artists := []; title := None; axis_on := true;
     tight := false |}.

(** [plt.figure(figsize=size)]: a new figure, which becomes current. *)
Definition plt_figure (size : nat * nat) : M World unit :=
  modify (set_figures (λ figs, new_figure size :: figs)).

(** A pyplot call works on the current figure and opens one first when
    none is open. *)
Definition on_current (f : Figure → Figure) : M World unit :=
  modify (set_figures (λ figs,
    match figs with
    | [] => [f (new_figure (6, 4)%nat)]
    | fig :: figs' => f fig :: figs'
    end)).

Definition add_artists (new : list Artist) : M World unit :=
  on_current (λ fig,
    {| figsize := figsize fig; artists := artists fig ++ new;
       title := title fig; axis_on := axis_on fig; tight := tight fig |}).

Definition edge_xy (pos : gmap Z Pos) (e : Z * Z) : option (Pos * Pos) :=
  src ← pos !! e.1; dst ← pos !! e.2; Some (src, dst).

(** [nx.draw_networkx_nodes(G, pos, node_color=.., node_size=..)] *)
Definition draw_networkx_nodes (G : DiGraph) (pos : gmap Z Pos)
    (node_color : string) (node_size : nat) : M World unit :=
  let nodelist := (map_to_list (node G)).*1 in
  match collect (pos !!.) nodelist with
  | inl n => raise (NetworkXError n)
  | inr xy =>
      add_artists
        (zip_with (λ n p, NodeMarker n p node_color node_size) nodelist xy)
  end.

(** [nx.draw_networkx_edges(G, pos, arrows=True, arrowstyle=.., arrowsize=..)] *)
Definition draw_networkx_edges (G : DiGraph) (pos : gmap Z Pos)
    (arrowstyle : string) (arrowsize : nat) : M World unit :=
  let edgelist := (map_to_list (edges G)).*1 in
  match collect (edge_xy pos) edgelist with
  | inl e => raise (KeyError (if pos !! e.1 is Some _ then e.2 else e.1))
  | inr xy =>
      add_artists
        (zip_with (λ e p, Arrow e.1 e.2 p.1 p.2 arrowstyle arrowsize) edgelist xy)
  end.

(** [nx.draw_networkx_labels(G, pos, labels=labels, font_size=..)] *)
Definition draw_networkx_labels (G : DiGraph) (pos : gmap Z Pos)
    (labels : gmap Z string) (font_size : nat) : M World unit :=
  let items := map_to_list labels in
  match collect (λ item, pos !! item.1) items with
  | inl item => raise (KeyError item.1)
  | inr xy =>
      add_artists
        (zip_with (λ item p, NodeText item.1 p item.2 font_size) items xy)
  end.

(** [nx.draw_networkx_edge_labels(G, pos, edge_labels=.., font_size=..)] *)
Definition draw_networkx_edge_labels (G : DiGraph) (pos : gmap Z Pos)
    (edge_labels : gmap (Z * Z) string) (font_size : nat) : M World unit :=
  let items := map_to_list edge_labels in
  match collect (λ item, edge_xy pos item.1) items with
  | inl item => raise (KeyError (if pos !! item.1.1 is Some _ then item.1.2 else item.1.1))
  | inr xy =>
      add_artists
        (zip_with (λ item p, EdgeText item.1.1 item.1.2 p.1 p.2 item.2 font_size)
           items xy)
  end.

(** [plt.title(s)], [plt.axis('off')], [plt.tight_layout()] *)
Definition plt_title (s : string) : M World unit :=
  on_current (λ fig,
    {| figsize := figsize fig; artists := artists fig; title := Some s;
       axis_on := axis_on fig; tight := tight fig |}).

Definition plt_axis_off : M World unit :=
  on_current (λ fig,
    {| figsize := figsize fig; artists := artists fig; title := title fig;
       axis_on := false; tight := tight fig |}).

Definition plt_tight_layout : M World unit :=
  on_current (λ fig,
    {| figsize := figsize fig; artists := artists fig; title := title fig;
       axis_on := axis_on fig; tight := true |}).

(** [plt.savefig(path, format=.., dpi=..)]: write the current figure. *)
Definition write_image (path format : string) (dpi : nat) : M World unit := λ w,
  match refusal path w with
  | Some strerror => (Raise (OSError strerror), w)
  | None =>
      let image := {| img_figure := default (new_figure (6, 4)%nat) (head (figures w));
                      img_format := format; img_dpi := dpi |} in
      (Ok tt, set_files (λ files, <[path := image]> files) w)
  end.

Definition plt_savefig (path format : string) (dpi : nat) : M World unit :=
  on_current (λ fig, fig);; write_image path format dpi.

(** [logger.info(msg)] and [logger.error(msg)] *)
Definition logger_info (msg : string) : M World unit :=
  modify (set_log (λ l, l ++ [(INFO, msg)])).

Definition logger_error (msg : string) : M World unit :=
  modify (set_log (λ l, l ++ [(ERROR, msg)])).

(** [plt.show()]: every open figure goes to the screen. *)
Definition plt_show : M World unit := λ w,
  (Ok tt, set_screen (λ shown, shown ++ figures w) w).

(** [plt.close()]: the current figure is closed. *)
Definition plt_close : M World unit := modify (set_figures (drop 1)).

Definition visualize_graph (G : DiGraph) (sent_id output_dir : string)
    : M World unit :=
  try_except_reraise
    (os_makedirs output_dir;;
     let output_path :=
       os_path_join output_dir ("dependency_graph_" +:+ sent_id +:+ ".png") in
     pos ← spring_layout G (1 # 2) 50;
     plt_figure (12, 8)%nat;;
     draw_networkx_nodes G pos "lightblue" 1000;;
     draw_networkx_edges G pos "->" 20;;
     let node_labels := get_node_attributes G "label" in
     draw_networkx_labels G pos node_labels 10;;
     let edge_labels := get_edge_attributes G "label" in
     draw_networkx_edge_labels G pos edge_labels 8;;
     plt_title ("Dependency Graph for Sentence ID: " +:+ sent_id);;
     plt_axis_off;;
     plt_tight_layout;;
     plt_savefig output_path "png" 300;;
     logger_info ("Saved graph to " +:+ output_path);;
     plt_show;;
     plt_close)
    (λ e, logger_error ("Error visualizing graph: " +:+ str e)).
End Renderer.

(** ** Worlds for the examples

    The examples render graphs of at most one node, for which the numeric
    core is never called; points and generator states are left trivial. *)
Definition no_core : DiGraph → Q → nat → unit → (Z → unit) * unit :=
  λ _ _ _ r, (λ _, tt, r).

(** Nothing on disk, nothing on the screen, nothing logged, and an
    operating system that refuses nothing. *)
Definition fresh_world : World (Pos := unit) (Rng := unit) :=
  {| fs_dirs := ∅; fs_files := ∅; os_refuses := ∅; screen := []; figures := [];
     log := []; rng := tt |}.

(** The fresh world in which the directory [p/graphs] cannot be made,
    while [p] can. *)
Definition refusing_world : World (Pos := unit) (Rng := unit) :=
  {| fs_dirs := ∅; fs_files := ∅;
     os_refuses := {[ "p/graphs" := "[Errno 36] File name too long: 'p/graphs'" ]};
     screen := []; figures := []; log := []; rng := tt |}.

(** The canvas of a graph without nodes. *)
Definition empty_canvas {Pos : Type} (sent_id : string) : Figure (Pos := Pos) :=
  {| figsize := (12, 8)%nat; artists := [];
     title := Some ("Dependency Graph for Sentence ID: " +:+ sent_id);
     axis_on := false; tight := true |}.

(** ** What a figure shows *)

(** The nodes with a marker, the edges with an arrow, and the texts put at
    nodes and along edges. *)
Definition marker_nodes {Pos : Type} (fig : Figure (Pos := Pos)) : list Z :=
  omap (λ a, match a with NodeMarker n _ _ _ => Some n | _ => None end)
    (artists fig).

Definition arrow_edges {Pos : Type} (fig : Figure (Pos := Pos)) : list (Z * Z) :=
  omap (λ a, match a with Arrow u v _ _ _ _ => Some (u, v) | _ => None end)
    (artists fig).

Definition node_texts {Pos : Type} (fig : Figure (Pos := Pos)) : list (Z * string) :=
  omap (λ a, match a with NodeText n _ text _ => Some (n, text) | _ => None end)
    (artists fig).

Definition edge_texts {Pos : Type} (fig : Figure (Pos := Pos))
    : list ((Z * Z) * string) :=
  omap (λ a, match a with EdgeText u v _ _ text _ => Some ((u, v), text) | _ => None end)
    (artists fig).

(** The figure [visualize_graph] has drawn when it reaches [plt.savefig]. *)
Definition drawn_figure {Pos : Type} (sent_id : string)
    (drawn : list (Artist (Pos := Pos))) : Figure (Pos := Pos) :=
  {| figsize := (12, 8)%nat; artists := drawn;
     title := Some ("Dependency Graph for Sentence ID: " +:+ sent_id);
     axis_on := false; tight := true |}.

(** [G.out_degree(u)]: the length of [_succ[u]]. *)
Definition out_degree (G : DiGraph) (u : Z) : nat :=
  size (default ∅ (succ G !! u)).

(** ** The loader and the program *)

(** The loader raises two exceptions of its own; whatever the parser and
    the calls modelled above raise passes through. *)
Inductive PyExn :=
| FileNotFoundError (msg : string)
| ValueError (msg : string)
| ParseException (msg : string)
| Other (e : Exn).

Definition str_py (e : PyExn) : string :=
  match e with
  | FileNotFoundError msg => msg
  | ValueError msg => msg
  | ParseException msg => msg
  | Other e => str e
  end.

Inductive Outcome (A : Type) :=
| Returned (a : A)
| Raised (e : PyExn).
Arguments Returned {A} a.
Arguments Raised {A} e.

Definition IO (S A : Type) : Type := S → Outcome A * S.

#[export] Instance IO_ret {S} : MRet (IO S) := λ A a s, (Returned a, s).

#[export] Instance IO_bind {S} : MBind (IO S) := λ A B k m s,
  match m s with
  | (Returned a, s') => k a s'
  | (Raised e, s') => (Raised e, s')
  end.

Definition raise_py {S A} (e : PyExn) : IO S A := λ s, (Raised e, s).

(** [try: body except Exception as e: handler(e); raise] for the loader. *)
Definition try_except_reraise_py {S A} (body : IO S A)
    (handler : PyExn → IO S unit) : IO S A :=
  λ s, match body s with
       | (Returned a, s') => (Returned a, s')
       | (Raised e, s') =>
           match handler e s' with
           | (Returned _, s'') => (Raised e, s'')
           | (Raised e', s'') => (Raised e', s'')
           end
       end.

Section Program.
Context {Pos Rng : Type}.
Variable fruchterman_reingold : DiGraph → Q → nat → Rng → (Z → Pos) * Rng.
Variable center : Pos.
(** [list(parse_incr(f))] of the [conllu] library on the text of a file:
    the sentences, or the exception the parser raises. *)
Variable parse_incr : string → PyExn + list (list Token).
(** What reading a stored picture as UTF-8 text gives. *)
Variable image_text : SavedImage (Pos := Pos) → PyExn + string.

(** Everything the program works on: the readable text files, the heap of
    graphs and the world of the renderer. *)
Record System := {
  disk : gmap string string;
  heap : Heap;
  world : World (Pos := Pos) (Rng := Rng);
}.

(** Run a call of the renderer, or of the builder, inside the program. *)
Definition in_world {A} (m : M World A) : IO System A := λ s,
  match m (world s) with
  | (Ok a, w') => (Returned a, {| disk := disk s; heap := heap s; world := w' |})
  | (Raise e, w') => (Raised (Other e), {| disk := disk s; heap := heap s; world := w' |})
  end.

Definition in_heap {A} (m : M Heap A) : IO System A := λ s,
  match m (heap s) with
  | (Ok a, h') => (Returned a, {| disk := disk s; heap := h'; world := world s |})
  | (Raise e, h') => (Raised (Other e), {| disk := disk s; heap := h'; world := world s |})
  end.

(** [os.path.exists(path)]: a directory, a stored picture or a text file. *)
Definition os_path_exists (path : string) : IO System bool := λ s,
  (Returned (bool_decide (path ∈ fs_dirs (world s))
             || bool_decide (is_Some (fs_files (world s) !! path))
             || bool_decide (is_Some (disk s !! path))), s).

(** [open(path, 'r', encoding='utf-8')] and the reading of the whole file. *)
Definition read_text (path : string) : IO System string := λ s,
  if bool_decide (path ∈ fs_dirs (world s))
  then (Raised (Other (OSError ("[Errno 21] Is a directory: '" +:+ path +:+ "'"))), s)
  else match fs_files (world s) !! path with
       | Some image =>
           match image_text image with
           | inl e => (Raised e, s)
           | inr text => (Returned text, s)
           end
       | None =>
           match disk s !! path with
           | Some text => (Returned text, s)
           | None =>
               (Raised (FileNotFoundError
                  ("[Errno 2] No such file or directory: '" +:+ path +:+ "'")), s)
           end
       end.

Definition read_conllu_file (conllu_path : string) : IO System (list Token) :=
  try_except_reraise_py
    (found ← os_path_exists conllu_path;
     (if negb found
      then raise_py (FileNotFoundError ("CoNLL-U file not found: " +:+ conllu_path))
      else mret tt);;
     text ← read_text conllu_path;
     sentences ← (match parse_incr text with
                  | inl e => raise_py e
                  | inr sentences => mret sentences
                  end);
     match sentences with
     | [] => raise_py (ValueError ("No sentences found in " +:+ conllu_path))
     | first :: _ =>
         in_world (logger_info ("Parsed CoNLL-U file: " +:+ conllu_path));;
         mret first
     end)
    (λ e, in_world (logger_error ("Error reading CoNLL-U file: " +:+ str_py e))).

(** The graph behind a reference; the builder's reference is always on the
    heap. *)
Definition deref (G : nat) : IO System DiGraph := λ s,
  (Returned (default DiGraph_empty (heap s !! G)), s).

Definition base_path : string :=
  "D:\Manish Prajapati\AML Sounding Trees\Project\Growing_tree_on_sound\graph_based".

Definition main : IO System unit :=
  let conllu_dir := os_path_join base_path "conllu" in
  let output_dir := os_path_join base_path "graphs" in
  let sent_id := "6308-68359-0026" in
  let conllu_path := os_path_join conllu_dir ("valid_" +:+ sent_id +:+ ".conllu") in
  sentence ← read_conllu_file conllu_path;
  graph ← in_heap (build_dependency_graph sentence);
  G ← deref graph;
  in_world (visualize_graph fruchterman_reingold center G sent_id output_dir).
End Program.

(** ** A system for the examples: one text file, parsed as the running
    example whatever it says, and the fresh world. *)
Definition example_parser : string → PyExn + list (list Token) :=
  λ text, if (String.length text =? 0)%nat then inr [] else inr [dogs_run; dangling].

Definition no_text : SavedImage (Pos := unit) → PyExn + string :=
  λ _, inl (ValueError "'utf-8' codec can't decode byte 0x89 in position 0: invalid start byte").

Definition example_system (files : gmap string string)
    : System (Pos := unit) (Rng := unit) :=
  {| disk := files; heap := []; world := fresh_world |}.

(** ** More example sentences *)

(** The id 1 comes twice, with the same head. *)
Definition relabelled : list Token :=
  [ mk 1 "a" "DET" (Some 2) "det"; mk 2 "b" "NOUN" (Some 0) "root";
    mk 1 "c" "ADJ" (Some 2) "amod" ].

(** A token whose head column is blank. *)
Definition headless : list Token :=
  [ mk 1 "Oh" "INTJ" None "_"; mk 2 "no" "INTJ" (Some 1) "discourse" ].

(** The fresh world on a full disk: the picture cannot be written. *)
Definition full_disk_world : World (Pos := unit) (Rng := unit) :=
  {| fs_dirs := ∅; fs_files := ∅;
     os_refuses :=
       {[ "graphs/dependency_graph_s1.png" := "[Errno 28] No space left on device" ]};
     screen := []; figures := []; log := []; rng := tt |}.

(** The system with one more line in the log. *)
Definition logged {Pos Rng : Type} (line : LogLevel * string)
    (s : System (Pos := Pos) (Rng := Rng)) : System (Pos := Pos) (Rng := Rng) :=
  {| disk := disk s; heap := heap s;
     world := set_log (λ l, l ++ [line]) (world s) |}.

(** The paths of [main]. *)
Definition main_sent_id : string := "6308-68359-0026".
Definition main_conllu_path : string :=
  os_path_join (os_path_join base_path "conllu")
    ("valid_" +:+ main_sent_id +:+ ".conllu").
Definition main_output_dir : string := os_path_join base_path "graphs".
Definition main_output_path : string :=
  os_path_join main_output_dir ("dependency_graph_" +:+ main_sent_id +:+ ".png").

(** A parser that rejects every text. *)
Definition failing_parser : string → PyExn + list (list Token) :=
  λ _, inl (ParseException "Invalid line format, line must contain either tabs or two spaces.").

(** The directories of the project: the base directory and the one that
    holds the input. *)
Definition project_dirs : gset string :=
  {[ base_path; os_path_join base_path "conllu" ]}.

(** The input file of [main] is there, in its directory. *)
Definition project_system : System (Pos := unit) (Rng := unit) :=
  {| disk := {[ main_conllu_path := "1 Dogs" ]}; heap := [];
     world :=
       {| fs_dirs := project_dirs; fs_files := ∅; os_refuses := ∅;
          screen := []; figures := []; log := []; rng := tt |} |}.

(** The input file of [main] is there, but the directory for the pictures
    may not be created. *)
Definition locked_system : System (Pos := unit) (Rng := unit) :=
  {| disk := {[ main_conllu_path := "1 Dogs" ]}; heap := [];
     world :=
       {| fs_dirs := project_dirs; fs_files := ∅;
          os_refuses := {[ main_output_dir := "[Errno 13] Permission denied" ]};
          screen := []; figures := []; log := []; rng := tt |} |}.

(** * Properties *)

(** ** The running example *)

Example dogs_run_nodes :
  node (build_graph dogs_run)
  = {[ 1 := {[ "label" := "Dogs/NOUN" ]}; 2 := {[ "label" := "run/VERB" ]} ]}.
Proof. vm_compute. reflexivity. Qed.

Example dogs_run_edges :
  edges (build_graph dogs_run) = {[ (2, 1) := {[ "label" := "nsubj" ]} ]}.
Proof. vm_compute. reflexivity. Qed.

(** A head that is no token's id: [add_edge] creates node 99 without
    attributes and records the edge. *)
Example dangling_graph :
  node (build_graph dangling) = {[ 1 := {[ "label" := "X/NOUN" ]}; 99 := ∅ ]}
  ∧ edges (build_graph dangling) = {[ (99, 1) := {[ "label" := "dep" ]} ]}.
Proof. split; vm_compute; reflexivity. Qed.

(** ** Adjacency dictionaries *)

Lemma lookup_edges G u v : edges G !! (u, v) = adj (succ G) u v.
Proof. unfold edges, adj. apply lookup_map_uncurry. Qed.

Lemma adj_insert_empty m n u v :
  m !! n = None → adj (<[n := ∅]> m) u v = adj m u v.
Proof.
  intros Hn. unfold adj. destruct (decide (n = u)) as [->|Hne].
  - rewrite lookup_insert_eq, Hn. simpl. apply lookup_empty.
  - by rewrite lookup_insert_ne.
Qed.

Lemma adj_alter_insert m u v d u' v' :
  is_Some (m !! u) →
  adj (alter (λ nbrs, <[v := d]> nbrs) u m) u' v'
  = if decide (u = u' ∧ v = v') then Some d else adj m u' v'.
Proof.
  intros [nb Hnb]. unfold adj. destruct (decide (u = u')) as [<-|Hne].
  - rewrite lookup_alter_eq, Hnb. simpl. case_decide as Hd.
    + destruct Hd as [_ <-]. by rewrite lookup_insert_eq.
    + rewrite lookup_insert_ne; [done|]. intros <-. by apply Hd.
  - rewrite lookup_alter_ne by done. case_decide as Hd; [|done].
    by destruct Hd.
Qed.

Lemma wf_empty : wf DiGraph_empty.
Proof. split; try done. Qed.

Lemma wf_succ_None G n : wf G → succ G !! n = None → node G !! n = None.
Proof.
  intros [Hs _ _] Hn. apply not_elem_of_dom. rewrite <-Hs.
  by apply not_elem_of_dom.
Qed.

Lemma wf_succ_Some G n nb : wf G → succ G !! n = Some nb → is_Some (node G !! n).
Proof.
  intros [Hs _ _] Hn. apply elem_of_dom. rewrite <-Hs. apply elem_of_dom. eauto.
Qed.

Lemma wf_pred_None G n : wf G → succ G !! n = None → pred G !! n = None.
Proof.
  intros [Hs Hp _] Hn. apply not_elem_of_dom. rewrite Hp, <-Hs.
  by apply not_elem_of_dom.
Qed.

Section touch.
Context (n : Z) (G : DiGraph) (HG : wf G).

Lemma touch_succ_is_Some : is_Some (succ (touch n G) !! n).
Proof using Type.
  unfold touch. destruct (succ G !! n) eqn:E; simpl; [by rewrite E|].
  rewrite lookup_insert_eq. eauto.
Qed.

Lemma touch_succ_mono m : is_Some (succ G !! m) → is_Some (succ (touch n G) !! m).
Proof using Type.
  unfold touch. destruct (succ G !! n) eqn:E; simpl; [done|].
  intros Hm. destruct (decide (n = m)) as [->|].
  - rewrite lookup_insert_eq. eauto.
  - by rewrite lookup_insert_ne.
Qed.

Lemma touch_adj_succ u v : adj (succ (touch n G)) u v = adj (succ G) u v.
Proof using Type.
  unfold touch. destruct (succ G !! n) eqn:E; simpl; [done|].
  by apply adj_insert_empty.
Qed.

Lemma touch_adj_pred u v : adj (pred (touch n G)) u v = adj (pred G) u v.
Proof using HG.
  unfold touch. destruct (succ G !! n) eqn:E; simpl; [done|].
  apply adj_insert_empty. by apply wf_pred_None.
Qed.

Lemma touch_node_lookup m :
  node (touch n G) !! m
  = match node G !! m with
    | Some d => Some d
    | None => if decide (m = n) then Some ∅ else None
    end.
Proof using HG.
  unfold touch. destruct (succ G !! n) as [nb|] eqn:E; simpl.
  - destruct (node G !! m) eqn:Em; [done|]. case_decide as Hd; [|done].
    subst m. destruct (wf_succ_Some _ _ _ HG E) as [d Hd]. congruence.
  - pose proof (wf_succ_None _ _ HG E) as Hn.
    destruct (decide (m = n)) as [->|Hne].
    + by rewrite lookup_insert_eq, Hn.
    + rewrite lookup_insert_ne by done. by destruct (node G !! m).
Qed.

Lemma touch_dom_node : dom (node (touch n G)) = {[n]} ∪ dom (node G).
Proof using HG.
  apply set_eq. intros m. rewrite elem_of_union, elem_of_singleton.
  rewrite !elem_of_dom, touch_node_lookup.
  destruct (node G !! m) eqn:E.
  - split; eauto.
  - case_decide; split; eauto; intros [?|[? ?]]; done.
Qed.

Lemma touch_wf : wf (touch n G).
Proof using HG.
  destruct HG as [Hs Hp Hm]. unfold touch.
  destruct (succ G !! n) eqn:E; [done|]. split; simpl.
  - rewrite !dom_insert_L. by rewrite Hs.
  - rewrite !dom_insert_L. by rewrite Hp.
  - intros u v. rewrite !adj_insert_empty; [done|done|].
    by apply wf_pred_None.
Qed.
End touch.

Lemma wf_pred_is_Some G n : wf G → is_Some (succ G !! n) → is_Some (pred G !! n).
Proof.
  intros [Hs Hp _] Hn. apply elem_of_dom. rewrite Hp, <-Hs. by apply elem_of_dom.
Qed.

Lemma lookup_default_adj (m : gmap Z (gmap Z Attrs)) v u :
  default ∅ (m !! v) !! u = adj m v u.
Proof. unfold adj. destruct (m !! v); simpl; [done|apply lookup_empty]. Qed.

Section add_node.
Context (n : Z) (attr : Attrs) (G : DiGraph) (HG : wf G).

Lemma add_node_adj_succ u v : adj (succ (add_node n attr G)) u v = adj (succ G) u v.
Proof using Type. simpl. apply touch_adj_succ. Qed.

Lemma add_node_edges : edges (add_node n attr G) = edges G.
Proof using Type.
  apply map_eq. intros [u v]. rewrite !lookup_edges. apply add_node_adj_succ.
Qed.

Lemma add_node_adj_pred u v : adj (pred (add_node n attr G)) u v = adj (pred G) u v.
Proof using HG. simpl. by apply touch_adj_pred. Qed.

Lemma add_node_lookup m :
  node (add_node n attr G) !! m
  = if decide (m = n) then Some (attr ∪ default ∅ (node G !! n)) else node G !! m.
Proof using HG.
  simpl. case_decide as Hd.
  - subst m. rewrite lookup_alter_eq, touch_node_lookup by done.
    destruct (node G !! n); simpl; [done|]. by rewrite decide_True.
  - rewrite lookup_alter_ne by done. rewrite touch_node_lookup by done.
    destruct (node G !! m); [done|]. by rewrite decide_False.
Qed.

Lemma add_node_dom : dom (node (add_node n attr G)) = {[n]} ∪ dom (node G).
Proof using HG. simpl. rewrite dom_alter_L. by apply touch_dom_node. Qed.

Lemma add_node_wf : wf (add_node n attr G).
Proof using HG.
  destruct (touch_wf n G HG) as [Hs Hp Hm]. split; simpl.
  - by rewrite dom_alter_L.
  - by rewrite dom_alter_L.
  - done.
Qed.
End add_node.

Section add_edge.
Context (u v : Z) (attr : Attrs) (G : DiGraph) (HG : wf G).

Lemma add_edge_adj_succ u' v' :
  adj (succ (add_edge u v attr G)) u' v'
  = if decide (u = u' ∧ v = v')
    then Some (attr ∪ default ∅ (adj (succ G) u v))
    else adj (succ G) u' v'.
Proof using Type.
  simpl. rewrite adj_alter_insert.
  - fold (adj (succ (touch v (touch u G))) u v).
    by rewrite !touch_adj_succ.
  - apply touch_succ_mono, touch_succ_is_Some.
Qed.

Lemma add_edge_adj_pred v' u' :
  adj (pred (add_edge u v attr G)) v' u'
  = if decide (v = v' ∧ u = u')
    then Some (attr ∪ default ∅ (adj (succ G) u v))
    else adj (pred G) v' u'.
Proof using HG.
  simpl. rewrite adj_alter_insert.
  - fold (adj (succ (touch v (touch u G))) u v).
    rewrite !touch_adj_succ, !touch_adj_pred; auto using touch_wf.
  - apply wf_pred_is_Some; [auto using touch_wf|]. apply touch_succ_is_Some.
Qed.

Lemma add_edge_edges :
  edges (add_edge u v attr G)
  = <[(u, v) := attr ∪ default ∅ (edges G !! (u, v))]> (edges G).
Proof using Type.
  apply map_eq. intros [u' v']. rewrite lookup_insert, !lookup_edges.
  rewrite add_edge_adj_succ.
  repeat case_decide; naive_solver.
Qed.

Lemma add_edge_wf : wf (add_edge u v attr G).
Proof using HG.
  pose proof (touch_wf v _ (touch_wf u G HG)) as [Hs Hp Hm]. split.
  - simpl. by rewrite dom_alter_L.
  - simpl. by rewrite dom_alter_L.
  - intros u' v'. rewrite add_edge_adj_pred, add_edge_adj_succ.
    destruct HG as [_ _ HmG]. rewrite HmG.
    repeat case_decide; naive_solver.
Qed.

Lemma add_edge_dom : dom (node (add_edge u v attr G)) = {[u; v]} ∪ dom (node G).
Proof using HG.
  simpl. rewrite !touch_dom_node by auto using touch_wf. set_solver.
Qed.

(** Adding an edge leaves the attributes of existing nodes alone; an end
    point it creates has no attributes. *)
Lemma add_edge_node_attrs m :
  default ∅ (node (add_edge u v attr G) !! m) = default ∅ (node G !! m).
Proof using HG.
  simpl. rewrite !touch_node_lookup by auto using touch_wf.
  destruct (node G !! m); [done|]. by repeat case_decide.
Qed.

Lemma add_edge_node_Some m d :
  node G !! m = Some d → node (add_edge u v attr G) !! m = Some d.
Proof using HG.
  intros Hm. simpl. rewrite !touch_node_lookup by auto using touch_wf.
  by rewrite Hm.
Qed.
End add_edge.

Lemma governor_Some t h : governor t = Some h ↔ tok_head t = Some h ∧ h ≠ 0.
Proof.
  unfold governor. destruct (tok_head t) as [h'|]; [|naive_solver].
  destruct (Z.eqb_spec h' 0); simpl; naive_solver.
Qed.

Lemma has_governor_true t : has_governor t = true ↔ is_Some (governor t).
Proof.
  unfold has_governor, governor, is_Some.
  destruct (tok_head t) as [h'|]; [destruct (h' =? 0)|]; simpl;
    split; intros Hg; try done; try (by eexists); by destruct Hg.
Qed.

Lemma build_step_governor G t :
  build_step G t
  = match governor t with
    | Some h => add_edge h (tok_id t) (edge_attrs t) (add_node (tok_id t) (node_attrs t) G)
    | None => add_node (tok_id t) (node_attrs t) G
    end.
Proof.
  unfold build_step, governor. destruct (tok_head t) as [h|]; [|done].
  by destruct (negb (h =? 0)).
Qed.

Lemma build_graph_snoc s t :
  build_graph (s ++ [t]) = build_step (build_graph s) t.
Proof. unfold build_graph. by rewrite foldl_snoc. Qed.

Lemma build_step_wf G t : wf G → wf (build_step G t).
Proof.
  intros HG. rewrite build_step_governor.
  destruct (governor t); auto using add_node_wf, add_edge_wf.
Qed.

Lemma build_graph_wf s : wf (build_graph s).
Proof.
  induction s as [|t s IH] using rev_ind; [apply wf_empty|].
  rewrite build_graph_snoc. by apply build_step_wf.
Qed.

Lemma build_step_edges G t :
  edges (build_step G t)
  = match governor t with
    | Some h => <[(h, tok_id t) := edge_attrs t ∪ default ∅ (edges G !! (h, tok_id t))]> (edges G)
    | None => edges G
    end.
Proof.
  rewrite build_step_governor. destruct (governor t) as [h|].
  - by rewrite add_edge_edges, add_node_edges.
  - apply add_node_edges.
Qed.

Lemma build_step_dom G t :
  wf G →
  dom (node (build_step G t))
  = {[tok_id t]} ∪ from_option singleton ∅ (governor t) ∪ dom (node G).
Proof.
  intros HG. rewrite build_step_governor. destruct (governor t) as [h|].
  - rewrite add_edge_dom, add_node_dom by auto using add_node_wf.
    simpl. set_solver.
  - rewrite add_node_dom by done. simpl. set_solver.
Qed.

Lemma build_step_node_own G t :
  wf G →
  node (build_step G t) !! tok_id t
  = Some (node_attrs t ∪ default ∅ (node G !! tok_id t)).
Proof.
  intros HG. rewrite build_step_governor.
  assert (node (add_node (tok_id t) (node_attrs t) G) !! tok_id t
          = Some (node_attrs t ∪ default ∅ (node G !! tok_id t))) as Hn.
  { rewrite add_node_lookup by done. by rewrite decide_True. }
  destruct (governor t) as [h|]; [|done].
  apply add_edge_node_Some; auto using add_node_wf.
Qed.

Lemma build_step_node_other G t m :
  wf G → m ≠ tok_id t →
  default ∅ (node (build_step G t) !! m) = default ∅ (node G !! m).
Proof.
  intros HG Hm. rewrite build_step_governor.
  assert (node (add_node (tok_id t) (node_attrs t) G) !! m = node G !! m) as Hn.
  { rewrite add_node_lookup by done. by rewrite decide_False. }
  destruct (governor t) as [h|]; [|by rewrite Hn].
  rewrite add_edge_node_attrs by auto using add_node_wf. by rewrite Hn.
Qed.

Lemma build_step_node_keep G t m d :
  wf G → m ≠ tok_id t → node G !! m = Some d →
  node (build_step G t) !! m = Some d.
Proof.
  intros HG Hm Hd. rewrite build_step_governor.
  assert (node (add_node (tok_id t) (node_attrs t) G) !! m = Some d) as Hn.
  { rewrite add_node_lookup by done. by rewrite decide_False. }
  destruct (governor t) as [h|]; [|done].
  apply add_edge_node_Some; auto using add_node_wf.
Qed.

Lemma NoDup_ids_snoc s t :
  NoDup (ids (s ++ [t])) → NoDup (ids s) ∧ tok_id t ∉ ids s.
Proof.
  unfold ids. rewrite fmap_app. simpl. rewrite NoDup_app.
  intros (Hs & Hd & _). split; [done|]. intros Hin.
  apply (Hd _ Hin). by apply list_elem_of_singleton.
Qed.

Lemma NoDup_ids_inj s t1 t2 :
  NoDup (ids s) → t1 ∈ s → t2 ∈ s → tok_id t1 = tok_id t2 → t1 = t2.
Proof.
  induction s as [|t s IH] using rev_ind; [by intros _ ?%elem_of_nil|].
  intros [Hs Ht]%NoDup_ids_snoc.
  rewrite !elem_of_app, !list_elem_of_singleton.
  intros [H1| ->] [H2| ->] Heq; auto.
  - exfalso. apply Ht. rewrite <-Heq. by apply list_elem_of_fmap_2.
  - exfalso. apply Ht. rewrite Heq. by apply list_elem_of_fmap_2.
Qed.

(** Every edge was put there by a token: it points at that token and starts
    at its governor. *)
Lemma edge_origin s u v d :
  edges (build_graph s) !! (u, v) = Some d →
  ∃ t, t ∈ s ∧ tok_id t = v ∧ governor t = Some u.
Proof.
  revert d. induction s as [|t s IH] using rev_ind; intros d.
  - unfold build_graph. simpl. by rewrite lookup_edges.
  - rewrite build_graph_snoc, build_step_edges.
    destruct (governor t) as [h|] eqn:Eg.
    + rewrite lookup_insert. case_decide as Hd.
      * intros _. exists t. split; [set_solver|]. by simplify_eq.
      * intros (t' & ? & ? & ?)%IH. exists t'. split; [set_solver|done].
    + intros (t' & ? & ? & ?)%IH. exists t'. split; [set_solver|done].
Qed.

Lemma no_edge_into_fresh s u v :
  v ∉ ids s → edges (build_graph s) !! (u, v) = None.
Proof.
  intros Hv. destruct (edges (build_graph s) !! (u, v)) as [d|] eqn:E; [|done].
  apply edge_origin in E as (t & Ht & <- & _).
  exfalso. apply Hv. by apply list_elem_of_fmap_2.
Qed.

(** A node that is no token's id carries no attributes. *)
Lemma node_unlabelled s n :
  n ∉ ids s → default ∅ (node (build_graph s) !! n) = ∅.
Proof.
  induction s as [|t s IH] using rev_ind; [done|].
  unfold ids. rewrite fmap_app, elem_of_app. simpl.
  rewrite list_elem_of_singleton. intros Hn.
  rewrite build_graph_snoc, build_step_node_other; auto using build_graph_wf.
Qed.

(** ** The builder on the heap *)

Lemma alter_last (f : DiGraph → DiGraph) (h : Heap) g :
  alter f (List.length h) (h ++ [g]) = h ++ [f g].
Proof.
  replace (List.length h) with (List.length h + 0)%nat by lia.
  by rewrite alter_app_r.
Qed.

Lemma for_each_last (h : Heap) (body : Token → M Heap unit) :
  (∀ t g, body t (h ++ [g]) = (Ok tt, h ++ [build_step g t])) →
  ∀ s g, for_each s body (h ++ [g]) = (Ok tt, h ++ [foldl build_step g s]).
Proof.
  intros Hbody s. induction s as [|t s IH]; intros g; [done|].
  simpl. unfold mbind, M_bind. by rewrite Hbody, IH.
Qed.

(** The call allocates one new graph, fills it as [build_graph] does,
    returns its reference and raises nothing; the graphs already on the heap
    are left as they were. *)
Lemma build_dependency_graph_spec sentence (h : Heap) :
  build_dependency_graph sentence h
  = (Ok (List.length h), h ++ [build_graph sentence]).
Proof.
  unfold build_dependency_graph, mbind, M_bind, new_DiGraph.
  rewrite for_each_last; [done|]. intros t g.
  unfold G_add_node, G_add_edge, modify, build_step. rewrite alter_last.
  destruct (tok_head t) as [head|]; [|done].
  destruct (negb (head =? 0)); [|done]. by rewrite alter_last.
Qed.

(** ** Nodes of the built graph *)

(** The node set is the ids together with the governors. *)
Lemma dom_nodes s :
  dom (node (build_graph s)) = list_to_set (ids s) ∪ list_to_set (governors s).
Proof.
  induction s as [|t s IH] using rev_ind; [done|].
  rewrite build_graph_snoc, build_step_dom, IH by apply build_graph_wf.
  unfold ids, governors. rewrite fmap_app, omap_app, !list_to_set_app_L. simpl.
  destruct (governor t); simpl; set_solver.
Qed.

(** With unique ids every token's node carries exactly that token's label. *)
Lemma node_of_token s t :
  NoDup (ids s) → t ∈ s → node (build_graph s) !! tok_id t = Some (node_attrs t).
Proof.
  induction s as [|x s IH] using rev_ind; [by intros _ ?%elem_of_nil|].
  intros [Hs Hx]%NoDup_ids_snoc. rewrite build_graph_snoc.
  rewrite elem_of_app, list_elem_of_singleton. intros [Ht| ->].
  - apply build_step_node_keep; auto using build_graph_wf.
    intros Heq. apply Hx. rewrite <-Heq. by apply list_elem_of_fmap_2.
  - rewrite build_step_node_own by apply build_graph_wf.
    rewrite node_unlabelled by done. by rewrite (right_id_L ∅ (∪)).
Qed.

(** ** Edges of the built graph *)

Lemma edge_of_token s t h :
  NoDup (ids s) → t ∈ s → governor t = Some h →
  edges (build_graph s) !! (h, tok_id t) = Some (edge_attrs t).
Proof.
  induction s as [|x s IH] using rev_ind; [by intros _ ?%elem_of_nil|].
  intros [Hs Hx]%NoDup_ids_snoc. rewrite build_graph_snoc, build_step_edges.
  rewrite elem_of_app, list_elem_of_singleton. intros [Ht| ->] Hg.
  - assert (tok_id t ≠ tok_id x) as Hne.
    { intros Heq. apply Hx. rewrite <-Heq. by apply list_elem_of_fmap_2. }
    destruct (governor x) as [hx|]; [|by apply IH].
    rewrite lookup_insert_ne by congruence. by apply IH.
  - rewrite Hg, lookup_insert_eq, no_edge_into_fresh by done. simpl.
    by rewrite (right_id_L ∅ (∪)).
Qed.

Lemma edge_count s :
  NoDup (ids s) →
  number_of_edges (build_graph s) = List.length (List.filter has_governor s).
Proof.
  unfold number_of_edges.
  induction s as [|x s IH] using rev_ind; [done|].
  intros [Hs Hx]%NoDup_ids_snoc. rewrite build_graph_snoc, build_step_edges.
  rewrite List.filter_app, length_app, <-IH by done. simpl.
  pose proof (has_governor_true x) as Hgx.
  destruct (governor x) as [hx|].
  - rewrite (proj2 Hgx) by eauto. simpl.
    rewrite map_size_insert_None by by apply no_edge_into_fresh. lia.
  - destruct (has_governor x); simpl; [|lia].
    destruct (proj1 Hgx eq_refl) as [? ?]. done.
Qed.

(** ** Incoming edges *)

Lemma lookup_pred_edges G v u :
  wf G → default ∅ (pred G !! v) !! u = edges G !! (u, v).
Proof.
  intros [_ _ Hm]. by rewrite lookup_default_adj, lookup_edges, Hm.
Qed.

Lemma map_size_le_1 (m : gmap Z Attrs) :
  (∀ i j, is_Some (m !! i) → is_Some (m !! j) → i = j) → (size m ≤ 1)%nat.
Proof.
  induction m as [|i x m Hi _ _] using map_first_key_ind.
  { intros _. rewrite map_size_empty. lia. }
  intros Huniq. destruct (decide (m = ∅)) as [->|Hne].
  - rewrite map_size_insert_None, map_size_empty by done. lia.
  - apply map_choose in Hne as (j & y & Hj). exfalso.
    assert (i = j) as <-; [|congruence].
    apply Huniq.
    + rewrite lookup_insert_eq. eauto.
    + rewrite lookup_insert_ne by congruence. eauto.
Qed.

Lemma in_degree_le_1 s v :
  NoDup (ids s) → (in_degree (build_graph s) v ≤ 1)%nat.
Proof.
  intros Hs. unfold in_degree. apply map_size_le_1. intros u1 u2.
  rewrite !lookup_pred_edges by apply build_graph_wf.
  intros [d1 (t1 & Ht1 & Hv1 & Hg1)%edge_origin] [d2 (t2 & Ht2 & Hv2 & Hg2)%edge_origin].
  assert (t1 = t2) by (apply (NoDup_ids_inj s); congruence).
  congruence.
Qed.

Lemma in_degree_root s t :
  NoDup (ids s) → t ∈ s → governor t = None →
  in_degree (build_graph s) (tok_id t) = 0%nat.
Proof.
  intros Hs Ht Hg. unfold in_degree. apply map_size_empty_iff, map_eq.
  intros u. rewrite lookup_empty, lookup_pred_edges by apply build_graph_wf.
  destruct (edges (build_graph s) !! (u, tok_id t)) as [d|] eqn:E; [|done].
  apply edge_origin in E as (t' & Ht' & Hid & Hg').
  assert (t' = t) as -> by by apply (NoDup_ids_inj s). congruence.
Qed.

(** ** The builder: results *)

(** C1, as the code has it: on the empty token sequence the builder raises
    nothing; it returns a reference to a fresh graph with no node and no
    edge. *)
Theorem build_empty_sentence (h : Heap) :
  build_dependency_graph [] h = (Ok (List.length h), h ++ [DiGraph_empty])
  ∧ number_of_nodes DiGraph_empty = 0%nat
  ∧ number_of_edges DiGraph_empty = 0%nat.
Proof. by rewrite build_dependency_graph_spec. Qed.

(** C1 fails as stated: the call on the empty sequence does not end in
    [InvalidInput]; it returns the empty graph. *)
Lemma build_empty_no_InvalidInput :
  build_dependency_graph [] [] = (Ok 0%nat, [DiGraph_empty])
  ∧ ¬ ∃ msg h', build_dependency_graph [] [] = (Raise (InvalidInput msg), h').
Proof. split; [done|]. by intros (msg & h' & ?). Qed.

(** C2, as the code has it: with unique ids, when every governor is the id
    of a token of the sentence, the graph has as many nodes as the sentence
    has tokens, and the node of each token carries the label
    [form/upos]. *)
Theorem build_node_count sentence (h : Heap) :
  NoDup (ids sentence) →
  (∀ g, g ∈ governors sentence → g ∈ ids sentence) →
  ∃ G, build_dependency_graph sentence h = (Ok (List.length h), h ++ [G])
       ∧ number_of_nodes G = List.length sentence
       ∧ ∀ t, t ∈ sentence →
              node G !! tok_id t = Some {[ "label" := node_label t ]}.
Proof.
  intros Hs Hg. exists (build_graph sentence).
  split; [apply build_dependency_graph_spec|]. split.
  - unfold number_of_nodes. rewrite <-size_dom, dom_nodes.
    replace (list_to_set (ids sentence) ∪ list_to_set (governors sentence))
      with (list_to_set (C := gset Z) (ids sentence)).
    + rewrite size_list_to_set by done. unfold ids. by rewrite length_fmap.
    + apply set_eq. intros n. rewrite elem_of_union, !elem_of_list_to_set.
      naive_solver.
  - intros t Ht. by apply node_of_token.
Qed.

Lemma build_node_count_witness :
  ∃ G, build_dependency_graph dogs_run [] = (Ok 0%nat, [G])
       ∧ number_of_nodes G = 2%nat
       ∧ ∀ t, t ∈ dogs_run →
              node G !! tok_id t = Some {[ "label" := node_label t ]}.
Proof.
  apply (build_node_count dogs_run []).
  - unfold ids, dogs_run. simpl. repeat constructor; set_solver.
  - unfold governors, ids, dogs_run. simpl. set_solver.
Defined.

(** C2 fails as stated: a head that is no token's id makes [add_edge]
    create a second node, so a one-token sentence gives a two-node graph. *)
Lemma build_dangling_head_extra_node :
  dangling ≠ [] ∧ NoDup (ids dangling)
  ∧ ∃ G, build_dependency_graph dangling [] = (Ok 0%nat, [G])
         ∧ number_of_nodes G = 2%nat
         ∧ number_of_nodes G ≠ List.length dangling.
Proof.
  split; [done|]. split.
  - unfold ids, dangling. simpl. repeat constructor; set_solver.
  - exists (build_graph dangling).
    split; [apply build_dependency_graph_spec|]. split; [by vm_compute|].
    by vm_compute.
Qed.

(** C3: with unique ids, each token with a governor has its edge from the
    governor to the token, labelled with the relation; there are as many
    edges as tokens with a governor; and every edge is such a token's edge,
    so a token with head [0] (or no head) contributes none. *)
Theorem build_edges sentence (h : Heap) :
  NoDup (ids sentence) →
  ∃ G, build_dependency_graph sentence h = (Ok (List.length h), h ++ [G])
       ∧ (∀ t head, t ∈ sentence → tok_head t = Some head → head ≠ 0 →
            edges G !! (head, tok_id t) = Some {[ "label" := tok_deprel t ]})
       ∧ number_of_edges G = List.length (List.filter has_governor sentence)
       ∧ (∀ u v d, edges G !! (u, v) = Some d →
            ∃ t, t ∈ sentence ∧ tok_id t = v ∧ tok_head t = Some u ∧ u ≠ 0).
Proof.
  intros Hs. exists (build_graph sentence).
  split; [apply build_dependency_graph_spec|]. split; [|split].
  - intros t head Ht Hh Hne. apply edge_of_token; [done..|].
    by apply governor_Some.
  - by apply edge_count.
  - intros u v d (t & Ht & Hid & Hg)%edge_origin.
    apply governor_Some in Hg as [? ?]. eauto.
Qed.

Lemma build_edges_witness :
  ∃ G, build_dependency_graph dogs_run [] = (Ok 0%nat, [G])
       ∧ (∀ t head, t ∈ dogs_run → tok_head t = Some head → head ≠ 0 →
            edges G !! (head, tok_id t) = Some {[ "label" := tok_deprel t ]})
       ∧ number_of_edges G = 1%nat
       ∧ (∀ u v d, edges G !! (u, v) = Some d →
            ∃ t, t ∈ dogs_run ∧ tok_id t = v ∧ tok_head t = Some u ∧ u ≠ 0).
Proof.
  apply (build_edges dogs_run []).
  unfold ids, dogs_run. simpl. repeat constructor; set_solver.
Defined.

(** C4: in every graph the builder returns, both end points of every edge
    are nodes, also when a head is no token's id. *)
Theorem build_edge_endpoints sentence (h : Heap) :
  ∃ G, build_dependency_graph sentence h = (Ok (List.length h), h ++ [G])
       ∧ ∀ u v, is_Some (edges G !! (u, v)) →
                u ∈ dom (node G) ∧ v ∈ dom (node G).
Proof.
  exists (build_graph sentence).
  split; [apply build_dependency_graph_spec|].
  intros u v [d (t & Ht & <- & Hg)%edge_origin].
  rewrite dom_nodes, !elem_of_union, !elem_of_list_to_set. split.
  - right. apply list_elem_of_omap. eauto.
  - left. by apply list_elem_of_fmap_2.
Qed.

(** C5: with unique ids, a token whose head is [0] has its node and no
    incoming edge. *)
Theorem build_root_no_incoming sentence (h : Heap) t :
  NoDup (ids sentence) → t ∈ sentence → tok_head t = Some 0 →
  ∃ G, build_dependency_graph sentence h = (Ok (List.length h), h ++ [G])
       ∧ is_Some (node G !! tok_id t)
       ∧ (∀ u, edges G !! (u, tok_id t) = None)
       ∧ in_degree G (tok_id t) = 0%nat.
Proof.
  intros Hs Ht Hh. exists (build_graph sentence).
  assert (governor t = None) as Hg by (unfold governor; by rewrite Hh).
  split; [apply build_dependency_graph_spec|]. split; [|split].
  - rewrite node_of_token by done. eauto.
  - intros u.
    destruct (edges (build_graph sentence) !! (u, tok_id t)) as [d|] eqn:E; [|done].
    apply edge_origin in E as (t' & Ht' & Hid & Hg').
    assert (t' = t) as -> by by apply (NoDup_ids_inj sentence). congruence.
  - by apply in_degree_root.
Qed.

Lemma build_root_no_incoming_witness :
  ∃ G, build_dependency_graph dogs_run [] = (Ok 0%nat, [G])
       ∧ is_Some (node G !! 2)
       ∧ (∀ u, edges G !! (u, 2) = None)
       ∧ in_degree G 2 = 0%nat.
Proof.
  apply (build_root_no_incoming dogs_run [] (mk 2 "run" "VERB" (Some 0) "root")).
  - unfold ids, dogs_run. simpl. repeat constructor; set_solver.
  - unfold dogs_run. set_solver.
  - reflexivity.
Defined.

(** C9: the graph depends on the token sequence alone.  Two calls in a row
    on the same sequence, from any heap, return two distinct references to
    graphs with the same node dictionary and the same adjacency
    dictionaries; the second call leaves the first graph as it was.  Finite
    maps are equal when their entries are, whatever the insertion order. *)
Theorem build_twice_same_graph sentence :
  ∃ G, ∀ h : Heap,
    ∃ r1 r2 h',
      (r1 ← build_dependency_graph sentence;
       r2 ← build_dependency_graph sentence;
       mret (r1, r2)) h = (Ok (r1, r2), h')
      ∧ r1 ≠ r2
      ∧ h' !! r1 = Some G ∧ h' !! r2 = Some G
      ∧ (∀ r, (r < List.length h)%nat → h' !! r = h !! r).
Proof.
  exists (build_graph sentence). intros h.
  exists (List.length h), (S (List.length h)), (h ++ [build_graph sentence; build_graph sentence]).
  unfold mbind, M_bind. rewrite build_dependency_graph_spec.
  rewrite build_dependency_graph_spec. rewrite length_app. simpl.
  replace (List.length h + 1)%nat with (S (List.length h)) by lia.
  rewrite <-(assoc_L (++)). simpl. split; [done|]. split; [lia|].
  split; [|split].
  - by rewrite lookup_app_r, Nat.sub_diag by lia.
  - rewrite lookup_app_r by lia.
    by replace (S (List.length h) - List.length h)%nat with 1%nat by lia.
  - intros r Hr. by rewrite lookup_app_l.
Qed.

(** C10: with unique ids, every node of the returned graph has at most one
    incoming edge. *)
Theorem build_in_degree sentence (h : Heap) :
  NoDup (ids sentence) →
  ∃ G, build_dependency_graph sentence h = (Ok (List.length h), h ++ [G])
       ∧ ∀ v, v ∈ dom (node G) → (in_degree G v ≤ 1)%nat.
Proof.
  intros Hs. exists (build_graph sentence).
  split; [apply build_dependency_graph_spec|].
  intros v _. by apply in_degree_le_1.
Qed.

Lemma build_in_degree_witness :
  ∃ G, build_dependency_graph dogs_run [] = (Ok 0%nat, [G])
       ∧ ∀ v, v ∈ dom (node G) → (in_degree G v ≤ 1)%nat.
Proof.
  apply (build_in_degree dogs_run []).
  unfold ids, dogs_run. simpl. repeat constructor; set_solver.
Defined.


(** ** The renderer: positions for everything that is drawn *)

Lemma collect_inl {A B} (f : A → option B) l a :
  collect f l = inl a → a ∈ l ∧ f a = None.
Proof.
  induction l as [|x l IH]; simpl; [done|].
  destruct (f x) eqn:E.
  - destruct (collect f l) as [a'|bs]; [|done].
    intros Ha. destruct (IH Ha). split; [set_solver|done].
  - intros [= <-]. split; [set_solver|done].
Qed.

Lemma elem_of_keys `{Countable K} {A} (m : gmap K A) k :
  k ∈ (map_to_list m).*1 → is_Some (m !! k).
Proof.
  intros ([k' x] & -> & Hx%elem_of_map_to_list)%list_elem_of_fmap. eauto.
Qed.

Lemma wf_edge_endpoints G u v :
  wf G → is_Some (edges G !! (u, v)) →
  is_Some (node G !! u) ∧ is_Some (node G !! v).
Proof.
  intros HG. pose proof HG as [Hs Hp Hm]. rewrite lookup_edges. intros Huv. split.
  - apply elem_of_dom. rewrite <-Hs. apply elem_of_dom.
    unfold adj in Huv. destruct (succ G !! u); [eauto|by destruct Huv].
  - apply elem_of_dom. rewrite <-Hp. apply elem_of_dom.
    rewrite <-Hm in Huv. unfold adj in Huv.
    destruct (pred G !! v); [eauto|by destruct Huv].
Qed.

(** ** Paths and the directories above them *)

Example os_path_split_examples :
  os_path_split "a/b" = ("a", "b")
  ∧ os_path_split "a/b/" = ("a/b", "")
  ∧ os_path_split "a//b" = ("a", "b")
  ∧ os_path_split "/a" = ("/", "a")
  ∧ os_path_split "a" = ("", "a")
  ∧ os_path_split "" = ("", "").
Proof. by repeat split. Qed.

Example makedirs_parent_examples :
  makedirs_parent "a/b" = Some "a"
  ∧ makedirs_parent "a/b/" = Some "a"
  ∧ makedirs_parent "a/b/c" = Some "a/b"
  ∧ makedirs_parent "/a" = Some "/"
  ∧ makedirs_parent "graphs" = None
  ∧ makedirs_parent "" = None.
Proof. by repeat split. Qed.

Lemma rsplit_sep_length p head tail :
  rsplit_sep p = (head, tail) →
  (String.length head + String.length tail = String.length p)%nat.
Proof.
  revert head tail. induction p as [|c p IH]; intros head tail; simpl.
  - by intros [= <- <-].
  - destruct (rsplit_sep p) as [h t]. specialize (IH h t eq_refl).
    destruct h as [|c' h].
    + destruct (Ascii.eqb c sep); intros [= <- <-]; simpl in *; lia.
    + intros [= <- <-]. simpl in *. lia.
Qed.

Lemma rstrip_sep_length s : (String.length (rstrip_sep s) ≤ String.length s)%nat.
Proof.
  induction s as [|c s IH]; simpl; [done|].
  destruct (rstrip_sep s) as [|c' r]; [|simpl in *; lia].
  destruct (Ascii.eqb c sep); simpl; lia.
Qed.

Lemma os_path_split_length p head tail :
  os_path_split p = (head, tail) →
  (String.length head + String.length tail ≤ String.length p)%nat.
Proof.
  unfold os_path_split. destruct (rsplit_sep p) as [h t] eqn:E.
  apply rsplit_sep_length in E. pose proof (rstrip_sep_length h) as Hr.
  destruct (rstrip_sep h); intros [= <- <-]; simpl in *; lia.
Qed.

(** The directory above a path is written with fewer characters. *)
Lemma makedirs_parent_length name head :
  makedirs_parent name = Some head →
  (0 < String.length head < String.length name)%nat.
Proof.
  unfold makedirs_parent. destruct (os_path_split name) as [h t] eqn:E.
  apply os_path_split_length in E. destruct t as [|c t].
  - destruct (os_path_split h) as [h' t'] eqn:E'.
    apply os_path_split_length in E'.
    destruct h' as [|c1 h']; [done|]. destruct t' as [|c2 t']; [done|].
    intros [= <-]. simpl in *. lia.
  - destruct h as [|c1 h]; [done|]. intros [= <-]. simpl in *. lia.
Qed.

Section RendererProperties.
Context {Pos Rng : Type}.
Variable fruchterman_reingold : DiGraph → Q → nat → Rng → (Z → Pos) * Rng.
Variable center : Pos.

Lemma set_rng_same (w : World (Pos := Pos) (Rng := Rng)) : set_rng (rng w) w = w.
Proof using Type. by destruct w. Qed.

(** The layout never raises, gives every node a position, and touches
    nothing of the world but the generator. *)
Lemma spring_layout_ok G k iterations (w : World) :
  ∃ pos r,
    spring_layout fruchterman_reingold center G k iterations w
    = (Ok pos, set_rng r w)
    ∧ dom pos = dom (node G).
Proof using Type.
  unfold spring_layout. destruct (size (node G)) as [|[|n]] eqn:E.
  - exists ∅, (rng w). rewrite set_rng_same. split; [done|].
    apply map_size_empty_inv in E. by rewrite E.
  - exists ((λ _, center) <$> node G), (rng w). rewrite set_rng_same.
    split; [done|]. by rewrite dom_fmap_L.
  - destruct (fruchterman_reingold G k iterations (rng w)) as [xy r'].
    exists (map_imap (λ n _, Some (xy n)) (node G)), r'. split; [done|].
    apply set_eq. intros m. rewrite !elem_of_dom, map_lookup_imap.
    destruct (node G !! m); simpl; split; intros [? ?]; eauto; done.
Qed.

Lemma edge_xy_None (pos : gmap Z Pos) e :
  edge_xy pos e = None → pos !! e.1 = None ∨ pos !! e.2 = None.
Proof using Type.
  unfold edge_xy. destruct (pos !! e.1); simpl; [|by left].
  destruct (pos !! e.2); simpl; [done|by right].
Qed.

Section drawing.
Context (G : DiGraph) (pos : gmap Z Pos).
Hypothesis HG : wf G.
Hypothesis Hpos : dom pos = dom (node G).

Lemma pos_of_node n : is_Some (node G !! n) → pos !! n ≠ None.
Proof using Hpos.
  intros Hn%elem_of_dom. rewrite <-Hpos in Hn.
  apply elem_of_dom in Hn as [p Hp]. congruence.
Qed.

Lemma edge_xy_of_edge e : is_Some (edges G !! e) → edge_xy pos e ≠ None.
Proof using HG Hpos.
  destruct e as [u v]. intros He.
  destruct (wf_edge_endpoints G u v HG He) as [Hu Hv].
  intros [Hn|Hn]%edge_xy_None; simpl in Hn.
  - by apply (pos_of_node u).
  - by apply (pos_of_node v).
Qed.

Lemma draw_networkx_nodes_ok node_color node_size :
  ∃ new, draw_networkx_nodes (Rng := Rng) G pos node_color node_size
         = add_artists new.
Proof using Hpos.
  unfold draw_networkx_nodes.
  destruct (collect _ _) as [n|xy] eqn:E; [|eauto].
  apply collect_inl in E as [Hn%elem_of_keys Hnone].
  by apply pos_of_node in Hn.
Qed.

Lemma draw_networkx_edges_ok arrowstyle arrowsize :
  ∃ new, draw_networkx_edges (Rng := Rng) G pos arrowstyle arrowsize
         = add_artists new.
Proof using HG Hpos.
  unfold draw_networkx_edges.
  destruct (collect _ _) as [e|xy] eqn:E; [|eauto].
  apply collect_inl in E as [He%elem_of_keys Hnone].
  by apply edge_xy_of_edge in He.
Qed.

Lemma draw_networkx_labels_ok font_size :
  ∃ new, draw_networkx_labels (Rng := Rng) G pos
           (get_node_attributes G "label") font_size
         = add_artists new.
Proof using Hpos.
  unfold draw_networkx_labels.
  destruct (collect _ _) as [[n l]|xy] eqn:E; [|eauto].
  apply collect_inl in E as [Hn%elem_of_map_to_list Hnone]. exfalso.
  unfold get_node_attributes in Hn. rewrite lookup_omap in Hn.
  simpl in Hnone. apply (pos_of_node n); [|done].
  destruct (node G !! n); [eauto|done].
Qed.

Lemma draw_networkx_edge_labels_ok font_size :
  ∃ new, draw_networkx_edge_labels (Rng := Rng) G pos
           (get_edge_attributes G "label") font_size
         = add_artists new.
Proof using HG Hpos.
  unfold draw_networkx_edge_labels.
  destruct (collect _ _) as [[e l]|xy] eqn:E; [|eauto].
  apply collect_inl in E as [He%elem_of_map_to_list Hnone]. exfalso.
  unfold get_edge_attributes in He. rewrite lookup_omap in He.
  simpl in Hnone. apply (edge_xy_of_edge e); [|done].
  destruct (edges G !! e); [eauto|done].
Qed.
End drawing.
(** ** The renderer: results *)

(** *** Refusals *)

Lemma refused_fs (w w' : World (Pos := Pos) (Rng := Rng)) fuel path :
  os_refuses w' = os_refuses w → refused fuel path w' = refused fuel path w.
Proof using Type.
  intros Hw. revert path. induction fuel as [|fuel IH]; intros path; simpl.
  - by rewrite Hw.
  - destruct (makedirs_parent path) as [head|]; [|by rewrite Hw].
    by rewrite IH, Hw.
Qed.

Lemma refusal_fs (w w' : World (Pos := Pos) (Rng := Rng)) path :
  os_refuses w' = os_refuses w → refusal path w' = refusal path w.
Proof using Type. unfold refusal. intros Hw. by rewrite (refused_fs w w'). Qed.

(** More fuel than the path has characters changes nothing. *)
Lemma refused_fuel (w : World (Pos := Pos) (Rng := Rng)) fuel path :
  (String.length path ≤ fuel)%nat →
  refused fuel path w = refused (String.length path) path w.
Proof using Type.
  revert path. induction (lt_wf fuel) as [fuel _ IH]. intros path Hfuel.
  destruct (makedirs_parent path) as [head|] eqn:E.
  - pose proof (makedirs_parent_length _ _ E) as Hlen.
    destruct fuel as [|fuel]; [lia|].
    destruct (String.length path) as [|n] eqn:En; [lia|].
    simpl. rewrite E. rewrite (IH fuel) by lia. by rewrite (IH n) by lia.
  - destruct fuel, (String.length path); simpl; by rewrite ?E.
Qed.

(** A path is refused with the directory above it, or for itself. *)
Lemma refusal_parent (w : World (Pos := Pos) (Rng := Rng)) name head :
  makedirs_parent name = Some head →
  refusal name w
  = match refusal head w with
    | Some strerror => Some strerror
    | None => os_refuses w !! name
    end.
Proof using Type.
  intros E. pose proof (makedirs_parent_length _ _ E) as Hlen.
  unfold refusal.
  destruct (String.length name) as [|n] eqn:En; [lia|].
  destruct (String.length head) as [|m] eqn:Em; [lia|].
  simpl. rewrite E. rewrite (refused_fuel w n head) by lia. by rewrite Em.
Qed.

Lemma refusal_orphan (w : World (Pos := Pos) (Rng := Rng)) name :
  makedirs_parent name = None →
  refusal name w
  = if (String.length name =? 0)%nat
    then Some "[Errno 2] No such file or directory: ''"
    else os_refuses w !! name.
Proof using Type.
  intros E. unfold refusal. destruct (String.length name); simpl; [done|].
  by rewrite E.
Qed.

(** *** [os.makedirs] *)

Lemma set_dirs_empty (w : World (Pos := Pos) (Rng := Rng)) :
  set_dirs (λ dirs, list_to_set [] ∪ dirs) w = w.
Proof using Type.
  destruct w. unfold set_dirs. simpl. f_equal. set_solver.
Qed.

Lemma set_dirs_twice (w : World (Pos := Pos) (Rng := Rng)) (l k : list string) :
  set_dirs (λ dirs, list_to_set k ∪ dirs) (set_dirs (λ dirs, list_to_set l ∪ dirs) w)
  = set_dirs (λ dirs, list_to_set (l ++ k) ∪ dirs) w.
Proof using Type.
  unfold set_dirs. simpl. f_equal. rewrite list_to_set_app_L. set_solver.
Qed.

Lemma os_mkdir_run (w : World (Pos := Pos) (Rng := Rng)) name :
  os_mkdir name w
  = match refusal name w with
    | Some strerror => (Raise (OSError strerror), w)
    | None => (Ok tt, set_dirs (λ dirs, list_to_set [name] ∪ dirs) w)
    end.
Proof using Type.
  unfold os_mkdir. destruct (refusal name w); [done|].
  unfold set_dirs. do 2 f_equal. set_solver.
Qed.

(** Above an accepted path everything is accepted. *)
Lemma makedirs_chain_accepted (w : World (Pos := Pos) (Rng := Rng)) fuel name dir :
  refusal name w = None → dir ∈ makedirs_chain fuel name w →
  refusal dir w = None.
Proof using Type.
  revert name. induction fuel as [|fuel IH]; intros name Hname; simpl.
  - by intros ->%list_elem_of_singleton.
  - destruct (makedirs_parent name) as [head|] eqn:E;
      [|by intros ->%list_elem_of_singleton].
    rewrite elem_of_app, list_elem_of_singleton. intros [Hdir| ->]; [|done].
    destruct (path_exists head w); [by apply elem_of_nil in Hdir|].
    apply (IH head); [|done].
    rewrite (refusal_parent w name head E) in Hname.
    by destruct (refusal head w).
Qed.

Lemma filter_accepted (w : World (Pos := Pos) (Rng := Rng)) (l : list string) :
  (∀ dir, dir ∈ l → refusal dir w = None) →
  filter (λ dir, refusal dir w = None) l = l.
Proof using Type.
  induction l as [|a l IH]; intros Hl; [done|].
  rewrite filter_cons_True by (apply Hl; set_solver).
  rewrite IH; [done|]. intros dir Hdir. apply Hl. set_solver.
Qed.

(** The whole of [os.makedirs]: with an accepted path the missing
    directories and the path itself are made; with a refused path the call
    raises that refusal and keeps what it made above the refused part. *)
Lemma makedirs_run (w : World (Pos := Pos) (Rng := Rng)) fuel name :
  makedirs fuel name w
  = match refusal name w with
    | Some strerror =>
        (Raise (OSError strerror),
         set_dirs (λ dirs,
           list_to_set (filter (λ dir, refusal dir w = None)
                          (makedirs_chain fuel name w)) ∪ dirs) w)
    | None =>
        (Ok tt, set_dirs (λ dirs, list_to_set (makedirs_chain fuel name w) ∪ dirs) w)
    end.
Proof using Type.
  assert (∀ name, os_mkdir name w
          = match refusal name w with
            | Some strerror =>
                (Raise (OSError strerror),
                 set_dirs (λ dirs,
                   list_to_set (filter (λ dir, refusal dir w = None) [name])
                   ∪ dirs) w)
            | None => (Ok tt, set_dirs (λ dirs, list_to_set [name] ∪ dirs) w)
            end) as Hleaf.
  { intros n. rewrite os_mkdir_run. destruct (refusal n w) eqn:En; [|done].
    rewrite filter_cons_False, filter_nil by (by rewrite En).
    by rewrite set_dirs_empty. }
  revert name. induction fuel as [|fuel IH]; intros name; simpl; [apply Hleaf|].
  destruct (makedirs_parent name) as [head|] eqn:E; [|apply Hleaf].
  unfold mbind, M_bind, os_path_exists_world.
  destruct (path_exists head w); simpl; [apply Hleaf|].
  rewrite IH, (refusal_parent w name head E).
  destruct (refusal head w) as [strerror|] eqn:Eh.
  - rewrite filter_app, filter_cons_False, filter_nil, (right_id_L [] (++)); [done|].
    by rewrite (refusal_parent w name head E), Eh.
  - rewrite os_mkdir_run. rewrite (refusal_fs w) by done.
    rewrite (refusal_parent w name head E), Eh.
    destruct (os_refuses w !! name) as [strerror|] eqn:En.
    + rewrite filter_app, filter_cons_False, filter_nil, (right_id_L [] (++)).
      * rewrite filter_accepted; [done|].
        intros dir. by apply makedirs_chain_accepted.
      * by rewrite (refusal_parent w name head E), Eh, En.
    + by rewrite set_dirs_twice.
Qed.

Lemma os_makedirs_run (w : World (Pos := Pos) (Rng := Rng)) name :
  os_makedirs name w
  = match refusal name w with
    | Some strerror =>
        (Raise (OSError strerror),
         set_dirs (λ dirs, list_to_set (makedirs_keeps name w) ∪ dirs) w)
    | None =>
        (Ok tt, set_dirs (λ dirs, list_to_set (makedirs_creates name w) ∪ dirs) w)
    end.
Proof using Type. apply makedirs_run. Qed.

(** The path itself is the last directory made. *)
Lemma makedirs_chain_last (w : World (Pos := Pos) (Rng := Rng)) fuel name :
  ∃ above, makedirs_chain fuel name w = above ++ [name].
Proof using Type.
  destruct fuel as [|fuel]; simpl; [by exists []|].
  destruct (makedirs_parent name); [eauto|by exists []].
Qed.

(** Apart from the path itself, only what was missing is made. *)
Lemma makedirs_chain_missing (w : World (Pos := Pos) (Rng := Rng)) fuel name dir :
  dir ∈ makedirs_chain fuel name w → dir = name ∨ path_exists dir w = false.
Proof using Type.
  revert name dir. induction fuel as [|fuel IH]; intros name dir; simpl.
  - intros ->%list_elem_of_singleton. by left.
  - destruct (makedirs_parent name) as [head|];
      [|intros ->%list_elem_of_singleton; by left].
    rewrite elem_of_app, list_elem_of_singleton. intros [Hdir| ->]; [|by left].
    destruct (path_exists head w) eqn:E; [by apply elem_of_nil in Hdir|].
    right. destruct (IH head dir Hdir) as [-> | ?]; done.
Qed.

(** What is made depends on the directories and files that are there. *)
Lemma makedirs_chain_fs (w w' : World (Pos := Pos) (Rng := Rng)) fuel name :
  fs_dirs w' = fs_dirs w → fs_files w' = fs_files w →
  makedirs_chain fuel name w' = makedirs_chain fuel name w.
Proof using Type.
  intros Hd Hf. revert name. induction fuel as [|fuel IH]; intros name; [done|].
  simpl. destruct (makedirs_parent name) as [head|]; [|done].
  unfold path_exists. by rewrite Hd, Hf, IH.
Qed.

Lemma makedirs_creates_fs (w w' : World (Pos := Pos) (Rng := Rng)) name :
  fs_dirs w' = fs_dirs w → fs_files w' = fs_files w →
  makedirs_creates name w' = makedirs_creates name w.
Proof using Type. apply makedirs_chain_fs. Qed.

Lemma makedirs_keeps_fs (w w' : World (Pos := Pos) (Rng := Rng)) name :
  fs_dirs w' = fs_dirs w → fs_files w' = fs_files w →
  os_refuses w' = os_refuses w →
  makedirs_keeps name w' = makedirs_keeps name w.
Proof using Type.
  intros Hd Hf Hr. unfold makedirs_keeps, makedirs_creates.
  rewrite (makedirs_chain_fs w w') by done.
  apply list_filter_iff. intros dir. by rewrite (refusal_fs w w').
Qed.

(** With the directory above it in place, only the path itself is made. *)
Lemma makedirs_creates_leaf (w : World (Pos := Pos) (Rng := Rng)) name head :
  makedirs_parent name = Some head → path_exists head w = true →
  makedirs_creates name w = [name].
Proof using Type.
  intros E Hex. unfold makedirs_creates.
  destruct (String.length name); simpl; [done|]. by rewrite E, Hex.
Qed.

(** Once the directories are there, only the path itself is left to make. *)
Lemma makedirs_chain_after (w w1 : World (Pos := Pos) (Rng := Rng)) fuel name :
  (∀ dir, dir ∈ makedirs_chain fuel name w → dir ∈ fs_dirs w1) →
  (∀ path, path_exists path w = true → path_exists path w1 = true) →
  makedirs_chain fuel name w1 = [name].
Proof using Type.
  intros Hmade Hkeep. destruct fuel as [|fuel]; simpl in *; [done|].
  destruct (makedirs_parent name) as [head|]; [|done].
  assert (path_exists head w1 = true) as ->; [|done].
  destruct (path_exists head w) eqn:E; [by apply Hkeep|].
  unfold path_exists. rewrite bool_decide_eq_true_2; [done|].
  apply Hmade. rewrite elem_of_app. left.
  destruct (makedirs_chain_last w fuel head) as [above ->]. set_solver.
Qed.

Ltac run_pyplot :=
  unfold plt_figure, add_artists, plt_title, plt_axis_off, plt_tight_layout,
    on_current, modify; cbv beta iota;
  unfold plt_savefig, mbind, M_bind, on_current, modify, write_image;
  cbv beta iota.

Ltac normalise_world :=
  cbv beta iota delta [set_figures set_screen set_log set_files set_rng set_dirs
    fs_dirs fs_files os_refuses screen figures log rng head default drop
    new_figure figsize artists title axis_on tight empty_canvas].

(** C7, as the code has it: when the operating system accepts the output
    directory and the image path, the call on a well-formed graph returns
    normally and has changed the world: the output directory exists,
    together with the directories above it that were missing, the figure
    is stored as a PNG at 300 dpi under
    [output_dir/dependency_graph_<sent_id>.png], it is on the screen, and
    the log has one more line.  The figure is closed again, the generator
    may have advanced, and nothing else has changed. *)
Theorem visualize_graph_effects G sent_id output_dir (w : World) :
  wf G →
  refusal output_dir w = None →
  refusal (os_path_join output_dir ("dependency_graph_" +:+ sent_id +:+ ".png")) w
  = None →
  ∃ fig rng',
    visualize_graph fruchterman_reingold center G sent_id output_dir w
    = (Ok tt,
       {| fs_dirs := list_to_set (makedirs_creates output_dir w) ∪ fs_dirs w;
          fs_files :=
            <[os_path_join output_dir ("dependency_graph_" +:+ sent_id +:+ ".png")
              := {| img_figure := fig; img_format := "png"; img_dpi := 300 |}]>
              (fs_files w);
          os_refuses := os_refuses w;
          screen := screen w ++ fig :: figures w;
          figures := figures w;
          log := log w ++
                 [(INFO, "Saved graph to " +:+
                    os_path_join output_dir
                      ("dependency_graph_" +:+ sent_id +:+ ".png"))];
          rng := rng' |})
    ∧ figsize fig = (12, 8)%nat
    ∧ title fig = Some ("Dependency Graph for Sentence ID: " +:+ sent_id)
    ∧ axis_on fig = false
    ∧ output_dir ∈ makedirs_creates output_dir w
    ∧ (∀ dir, dir ∈ makedirs_creates output_dir w →
              dir = output_dir ∨ path_exists dir w = false).
Proof using Type.
  intros HG Hdir Hpath.
  destruct (spring_layout_ok G (1 # 2) 50 (set_dirs (λ dirs, list_to_set (makedirs_creates output_dir w) ∪ dirs) w))
    as (pos & r & Hlay & Hdom).
  destruct (draw_networkx_nodes_ok G pos Hdom "lightblue" 1000) as [a1 H1].
  destruct (draw_networkx_edges_ok G pos HG Hdom "->" 20) as [a2 H2].
  destruct (draw_networkx_labels_ok G pos Hdom 10) as [a3 H3].
  destruct (draw_networkx_edge_labels_ok G pos HG Hdom 8) as [a4 H4].
  eexists _, r.
  unfold visualize_graph, try_except_reraise, mbind, M_bind.
  rewrite os_makedirs_run, Hdir, Hlay, H1, H2, H3, H4.
  run_pyplot. erewrite (refusal_fs w); [|reflexivity]. rewrite Hpath.
  unfold logger_info, plt_show, plt_close, modify. cbv beta iota.
  normalise_world. split; [reflexivity|]. do 3 (split; [done|]). split.
  - unfold makedirs_creates.
    destruct (makedirs_chain_last w (String.length output_dir) output_dir)
      as [above ->].
    set_solver.
  - intros dir. apply makedirs_chain_missing.
Qed.

(** The drawing calls on the graph without nodes add nothing. *)
Lemma draw_nothing :
  draw_networkx_nodes (Rng := Rng) (Pos := Pos) DiGraph_empty ∅ "lightblue" 1000
  = add_artists []
  ∧ draw_networkx_edges (Rng := Rng) (Pos := Pos) DiGraph_empty ∅ "->" 20
    = add_artists []
  ∧ draw_networkx_labels (Rng := Rng) (Pos := Pos) DiGraph_empty ∅
      (get_node_attributes DiGraph_empty "label") 10
    = add_artists []
  ∧ draw_networkx_edge_labels (Rng := Rng) (Pos := Pos) DiGraph_empty ∅
      (get_edge_attributes DiGraph_empty "label") 8
    = add_artists [].
Proof using Type. by repeat split. Qed.

(** Rendering the graph without nodes, step by step. *)
Lemma visualize_graph_empty_run sent_id output_dir (w : World) :
  refusal output_dir w = None →
  refusal (os_path_join output_dir ("dependency_graph_" +:+ sent_id +:+ ".png")) w
  = None →
  visualize_graph fruchterman_reingold center DiGraph_empty sent_id output_dir w
  = (Ok tt,
     {| fs_dirs := list_to_set (makedirs_creates output_dir w) ∪ fs_dirs w;
        fs_files :=
          <[os_path_join output_dir ("dependency_graph_" +:+ sent_id +:+ ".png")
            := {| img_figure := empty_canvas sent_id; img_format := "png";
                  img_dpi := 300 |}]>
            (fs_files w);
        os_refuses := os_refuses w;
        screen := screen w ++ empty_canvas sent_id :: figures w;
        figures := figures w;
        log := log w ++
               [(INFO, "Saved graph to " +:+
                  os_path_join output_dir
                    ("dependency_graph_" +:+ sent_id +:+ ".png"))];
        rng := rng w |}).
Proof using Type.
  intros Hdir Hpath.
  destruct draw_nothing as (H1 & H2 & H3 & H4).
  unfold visualize_graph, try_except_reraise, mbind, M_bind.
  rewrite os_makedirs_run, Hdir.
  change (spring_layout fruchterman_reingold center DiGraph_empty (1 # 2) 50
            (set_dirs (λ dirs, list_to_set (makedirs_creates output_dir w) ∪ dirs) w))
    with (Ok (∅ : gmap Z Pos),
          set_dirs (λ dirs, list_to_set (makedirs_creates output_dir w) ∪ dirs) w).
  cbv beta iota. rewrite H1, H2, H3, H4.
  run_pyplot. erewrite (refusal_fs w); [|reflexivity]. rewrite Hpath.
  unfold logger_info, plt_show, plt_close, modify. cbv beta iota.
  normalise_world. reflexivity.
Qed.

(** C8: rendering the graph with no node and no edge succeeds.  When the
    operating system accepts the output directory and the image path, the
    call returns normally and raises nothing; the artifact, the canvas it
    stores and shows, has no drawn node, no drawn edge and no other drawn
    element, and the generator is not used. *)
Theorem visualize_empty_graph sent_id output_dir (w : World) :
  refusal output_dir w = None →
  refusal (os_path_join output_dir ("dependency_graph_" +:+ sent_id +:+ ".png")) w
  = None →
  number_of_nodes DiGraph_empty = 0%nat ∧ number_of_edges DiGraph_empty = 0%nat
  ∧ artists (empty_canvas (Pos := Pos) sent_id) = []
  ∧ marker_nodes (empty_canvas (Pos := Pos) sent_id) = []
  ∧ arrow_edges (empty_canvas (Pos := Pos) sent_id) = []
  ∧ visualize_graph fruchterman_reingold center DiGraph_empty sent_id output_dir w
    = (Ok tt,
       {| fs_dirs := list_to_set (makedirs_creates output_dir w) ∪ fs_dirs w;
          fs_files :=
            <[os_path_join output_dir ("dependency_graph_" +:+ sent_id +:+ ".png")
              := {| img_figure := empty_canvas sent_id; img_format := "png";
                    img_dpi := 300 |}]>
              (fs_files w);
          os_refuses := os_refuses w;
          screen := screen w ++ empty_canvas sent_id :: figures w;
          figures := figures w;
          log := log w ++
                 [(INFO, "Saved graph to " +:+
                    os_path_join output_dir
                      ("dependency_graph_" +:+ sent_id +:+ ".png"))];
          rng := rng w |}).
Proof using Type.
  intros Hdir Hpath. do 5 (split; [done|]).
  by apply visualize_graph_empty_run.
Qed.
End RendererProperties.

(** ** The renderer on the example worlds *)

(** [os.makedirs('a/b')] on an empty disk makes [a], then [a/b]. *)
Example os_makedirs_nested :
  os_makedirs "a/b" fresh_world
  = (Ok tt, set_dirs (λ dirs, list_to_set ["a"; "a/b"] ∪ dirs) fresh_world).
Proof. rewrite os_makedirs_run. reflexivity. Qed.

(** When [p/graphs] is refused, [p] has been made and stays. *)
Example os_makedirs_keeps_parent :
  os_makedirs "p/graphs" refusing_world
  = (Raise (OSError "[Errno 36] File name too long: 'p/graphs'"),
     set_dirs (λ dirs, list_to_set ["p"] ∪ dirs) refusing_world).
Proof. rewrite os_makedirs_run. reflexivity. Qed.

(** A directory that is there is not made again, and what is below a
    refused directory is refused with it. *)
Example os_makedirs_existing_parent :
  makedirs_creates "a/b" (set_dirs (λ dirs, {[ "a" ]} ∪ dirs) fresh_world) = ["a/b"]
  ∧ refusal "p/graphs/x.png" refusing_world
    = Some "[Errno 36] File name too long: 'p/graphs'"
  ∧ refusal "p/other" refusing_world = None.
Proof. by repeat split. Qed.

Lemma visualize_graph_effects_witness :
  ∃ fig rng',
    visualize_graph no_core tt (build_graph dogs_run) "s1" "out/graphs" fresh_world
    = (Ok tt,
       {| fs_dirs := list_to_set (makedirs_creates "out/graphs" fresh_world) ∪ fs_dirs fresh_world;
          fs_files :=
            <[os_path_join "out/graphs" ("dependency_graph_" +:+ "s1" +:+ ".png")
              := {| img_figure := fig; img_format := "png"; img_dpi := 300 |}]>
              (fs_files fresh_world);
          os_refuses := os_refuses fresh_world;
          screen := screen fresh_world ++ fig :: figures fresh_world;
          figures := figures fresh_world;
          log := log fresh_world ++
                 [(INFO, "Saved graph to " +:+
                    os_path_join "out/graphs"
                      ("dependency_graph_" +:+ "s1" +:+ ".png"))];
          rng := rng' |})
    ∧ figsize fig = (12, 8)%nat
    ∧ title fig = Some ("Dependency Graph for Sentence ID: " +:+ "s1")
    ∧ axis_on fig = false
    ∧ "out/graphs" ∈ makedirs_creates "out/graphs" fresh_world
    ∧ (∀ dir, dir ∈ makedirs_creates "out/graphs" fresh_world →
              dir = "out/graphs" ∨ path_exists dir fresh_world = false).
Proof.
  apply (visualize_graph_effects no_core tt (build_graph dogs_run) "s1" "out/graphs"
           fresh_world).
  - apply build_graph_wf.
  - reflexivity.
  - reflexivity.
Defined.

(** C7 fails as stated: on a world with an empty disk and an empty screen
    the call creates the directory, stores the picture in a file and puts
    it on the screen. *)
Lemma visualize_graph_saves_and_shows :
  fs_files fresh_world = ∅ ∧ screen fresh_world = []
  ∧ ∃ w',
      visualize_graph no_core tt DiGraph_empty "s1" "graphs" fresh_world
      = (Ok tt, w')
      ∧ fs_dirs w' = {[ "graphs" ]} ∪ ∅
      ∧ fs_files w'
        = <[ "graphs/dependency_graph_s1.png"
             := {| img_figure := empty_canvas "s1"; img_format := "png";
                   img_dpi := 300 |} ]> ∅
      ∧ screen w' = [empty_canvas "s1"].
Proof.
  do 2 (split; [done|]). eexists. split.
  - by apply visualize_graph_empty_run.
  - done.
Qed.

Lemma visualize_empty_graph_witness :
  number_of_nodes DiGraph_empty = 0%nat ∧ number_of_edges DiGraph_empty = 0%nat
  ∧ artists (empty_canvas (Pos := unit) "s1") = []
  ∧ marker_nodes (empty_canvas (Pos := unit) "s1") = []
  ∧ arrow_edges (empty_canvas (Pos := unit) "s1") = []
  ∧ visualize_graph no_core tt DiGraph_empty "s1" "out/graphs" fresh_world
    = (Ok tt,
       {| fs_dirs := list_to_set (makedirs_creates "out/graphs" fresh_world) ∪ fs_dirs fresh_world;
          fs_files :=
            <[os_path_join "out/graphs" ("dependency_graph_" +:+ "s1" +:+ ".png")
              := {| img_figure := empty_canvas "s1"; img_format := "png";
                    img_dpi := 300 |}]>
              (fs_files fresh_world);
          os_refuses := os_refuses fresh_world;
          screen := screen fresh_world ++ empty_canvas "s1" :: figures fresh_world;
          figures := figures fresh_world;
          log := log fresh_world ++
                 [(INFO, "Saved graph to " +:+
                    os_path_join "out/graphs"
                      ("dependency_graph_" +:+ "s1" +:+ ".png"))];
          rng := rng fresh_world |}).
Proof.
  apply (visualize_empty_graph no_core tt "s1" "out/graphs" fresh_world); reflexivity.
Defined.


(** * More about the builder *)

(** ** Attribute dictionaries hold one label at most *)

Lemma label_union (a b : string) :
  ({[ "label" := a ]} : Attrs) ∪ {[ "label" := b ]} = {[ "label" := a ]}.
Proof. apply (union_singleton_r _ _ a), lookup_singleton_eq. Qed.

Lemma edge_attrs_shape s e d :
  edges (build_graph s) !! e = Some d → ∃ l, d = {[ "label" := l ]}.
Proof.
  revert d. induction s as [|t s IH] using rev_ind; intros d.
  - destruct e. by rewrite lookup_edges.
  - rewrite build_graph_snoc, build_step_edges.
    destruct (governor t) as [h|]; [|apply IH].
    rewrite lookup_insert. case_decide as He; [|apply IH]. subst e.
    intros [= <-].
    destruct (edges (build_graph s) !! (h, tok_id t)) as [d'|] eqn:E; simpl.
    + destruct (IH _ eq_refl) as [l ->]. unfold edge_attrs.
      rewrite label_union. eauto.
    + unfold edge_attrs. rewrite (right_id_L ∅ (∪)). eauto.
Qed.

Lemma node_attrs_shape s n :
  default ∅ (node (build_graph s) !! n) = ∅
  ∨ ∃ l, default ∅ (node (build_graph s) !! n) = {[ "label" := l ]}.
Proof.
  induction s as [|t s IH] using rev_ind; [by left|].
  rewrite build_graph_snoc. destruct (decide (n = tok_id t)) as [->|Hne].
  - right. rewrite build_step_node_own by apply build_graph_wf. simpl.
    destruct IH as [-> | [l ->]]; unfold node_attrs.
    + rewrite (right_id_L ∅ (∪)). eauto.
    + rewrite label_union. eauto.
  - by rewrite build_step_node_other by auto using build_graph_wf.
Qed.

(** ** The last token with an id, or with an edge, decides the label *)

Lemma node_label_last s1 t s2 :
  tok_id t ∉ ids s2 →
  node (build_graph (s1 ++ t :: s2)) !! tok_id t = Some (node_attrs t).
Proof.
  induction s2 as [|x s2 IH] using rev_ind; intros Hid.
  - rewrite build_graph_snoc, build_step_node_own by apply build_graph_wf.
    f_equal. destruct (node_attrs_shape s1 (tok_id t)) as [-> | [l ->]];
      unfold node_attrs.
    + by rewrite (right_id_L ∅ (∪)).
    + by rewrite label_union.
  - unfold ids in Hid. rewrite fmap_app, elem_of_app in Hid. simpl in Hid.
    rewrite list_elem_of_singleton in Hid.
    rewrite app_comm_cons, (assoc_L (++)), build_graph_snoc.
    apply build_step_node_keep; auto using build_graph_wf.
Qed.

Lemma edge_label_last s1 t s2 h :
  governor t = Some h →
  (∀ t', t' ∈ s2 → tok_id t' = tok_id t → governor t' ≠ Some h) →
  edges (build_graph (s1 ++ t :: s2)) !! (h, tok_id t) = Some (edge_attrs t).
Proof.
  intros Hg. induction s2 as [|x s2 IH] using rev_ind; intros Hlater.
  - rewrite build_graph_snoc, build_step_edges, Hg, lookup_insert_eq. f_equal.
    destruct (edges (build_graph s1) !! (h, tok_id t)) as [d|] eqn:E; simpl.
    + destruct (edge_attrs_shape _ _ _ E) as [l ->]. apply label_union.
    + by rewrite (right_id_L ∅ (∪)).
  - rewrite app_comm_cons, (assoc_L (++)), build_graph_snoc, build_step_edges.
    assert (edges (build_graph (s1 ++ t :: s2)) !! (h, tok_id t)
            = Some (edge_attrs t)) as Hprev.
    { apply IH. intros t' Ht'. apply Hlater. set_solver. }
    destruct (governor x) as [hx|] eqn:Egx; [|done].
    rewrite lookup_insert_ne; [done|]. intros [= -> Hid].
    by apply (Hlater x); [set_solver|..].
Qed.

(** ** Edges are never taken away *)

Lemma edges_step_mono G t e :
  is_Some (edges G !! e) → is_Some (edges (build_step G t) !! e).
Proof.
  intros He. rewrite build_step_edges. destruct (governor t) as [h|]; [|done].
  rewrite lookup_insert. case_decide; [eauto|done].
Qed.

Lemma edge_of_any_token s t h :
  t ∈ s → governor t = Some h →
  is_Some (edges (build_graph s) !! (h, tok_id t)).
Proof.
  induction s as [|x s IH] using rev_ind; [by intros ?%elem_of_nil|].
  rewrite elem_of_app, list_elem_of_singleton, build_graph_snoc.
  intros [Ht| ->] Hg.
  - apply edges_step_mono. by apply IH.
  - rewrite build_step_edges, Hg, lookup_insert_eq. eauto.
Qed.

(** ** Successors *)

Lemma lookup_succ_edges G u v : default ∅ (succ G !! u) !! v = edges G !! (u, v).
Proof. by rewrite lookup_default_adj, lookup_edges. Qed.

Lemma NoDup_ids_filter (P : Token → Prop) `{∀ t, Decision (P t)} s :
  NoDup (ids s) → NoDup (ids (filter P s)).
Proof.
  unfold ids. intros Hs. apply (sublist_NoDup _ (tok_id <$> s)); [done|].
  apply fmap_sublist, sublist_filter.
Qed.

Lemma out_degree_governed s h :
  NoDup (ids s) →
  out_degree (build_graph s) h
  = List.length (filter (λ t, governor t = Some h) s).
Proof.
  intros Hs. unfold out_degree. rewrite <-size_dom.
  replace (dom (default ∅ (succ (build_graph s) !! h)))
    with (list_to_set (C := gset Z) (ids (filter (λ t, governor t = Some h) s))).
  - rewrite size_list_to_set by by apply NoDup_ids_filter.
    unfold ids. by rewrite length_fmap.
  - apply set_eq. intros v.
    rewrite elem_of_list_to_set, elem_of_dom, lookup_succ_edges.
    unfold ids. rewrite list_elem_of_fmap. split.
    + intros (t & -> & [Hg Ht]%list_elem_of_filter). by apply edge_of_any_token.
    + intros [d (t & Ht & <- & Hg)%edge_origin]. exists t. split; [done|].
      by apply list_elem_of_filter.
Qed.

(** ** The builder: further results *)

(** X1: for every token sequence, the nodes of the returned graph are the
    ids of the tokens together with the heads that are present and not
    [0], and nothing else. *)
Theorem build_node_set sentence (h : Heap) :
  ∃ G, build_dependency_graph sentence h = (Ok (List.length h), h ++ [G])
       ∧ ∀ n, is_Some (node G !! n)
              ↔ ∃ t, t ∈ sentence
                     ∧ (tok_id t = n ∨ (tok_head t = Some n ∧ n ≠ 0)).
Proof.
  exists (build_graph sentence).
  split; [apply build_dependency_graph_spec|]. intros n.
  rewrite <-elem_of_dom, dom_nodes, elem_of_union, !elem_of_list_to_set.
  unfold ids, governors. rewrite list_elem_of_fmap, list_elem_of_omap. split.
  - intros [(t & -> & Ht) | (t & Ht & Hg)]; exists t; split; auto.
    right. by apply governor_Some.
  - intros (t & Ht & [<- | Hg]); [left; eauto|].
    right. exists t. split; [done|]. by apply governor_Some.
Qed.

(** X2: for every token sequence, with or without repeated ids, the graph
    has an edge from [u] to [v] exactly when some token has id [v] and a
    head [u] that is not [0]. *)
Theorem build_edge_set sentence (h : Heap) :
  ∃ G, build_dependency_graph sentence h = (Ok (List.length h), h ++ [G])
       ∧ ∀ u v, is_Some (edges G !! (u, v))
                ↔ ∃ t, t ∈ sentence ∧ tok_id t = v
                       ∧ tok_head t = Some u ∧ u ≠ 0.
Proof.
  exists (build_graph sentence).
  split; [apply build_dependency_graph_spec|]. intros u v. split.
  - intros [d (t & Ht & Hid & Hg)%edge_origin].
    apply governor_Some in Hg as [? ?]. eauto.
  - intros (t & Ht & <- & Hh & Hu). apply edge_of_any_token; [done|].
    by apply governor_Some.
Qed.

(** X3: when an id comes more than once, the node keeps one entry and its
    label is that of the last token with the id. *)
Theorem build_last_label_wins s1 t s2 (h : Heap) :
  tok_id t ∉ ids s2 →
  ∃ G, build_dependency_graph (s1 ++ t :: s2) h = (Ok (List.length h), h ++ [G])
       ∧ node G !! tok_id t = Some {[ "label" := node_label t ]}.
Proof.
  intros Hid. exists (build_graph (s1 ++ t :: s2)).
  split; [apply build_dependency_graph_spec|]. by apply node_label_last.
Qed.

Lemma build_last_label_wins_witness :
  ∃ G, build_dependency_graph relabelled [] = (Ok 0%nat, [G])
       ∧ node G !! 1 = Some {[ "label" := "c/ADJ" ]}.
Proof.
  apply (build_last_label_wins
           [mk 1 "a" "DET" (Some 2) "det"; mk 2 "b" "NOUN" (Some 0) "root"]
           (mk 1 "c" "ADJ" (Some 2) "amod") [] []).
  apply not_elem_of_nil.
Defined.

(** X4: when several tokens give the same edge (same id, same head), the
    edge is there once and its label is the relation of the last of
    them. *)
Theorem build_last_relation_wins s1 t s2 head (h : Heap) :
  tok_head t = Some head → head ≠ 0 →
  (∀ t', t' ∈ s2 → tok_id t' = tok_id t → tok_head t' ≠ Some head) →
  ∃ G, build_dependency_graph (s1 ++ t :: s2) h = (Ok (List.length h), h ++ [G])
       ∧ edges G !! (head, tok_id t) = Some {[ "label" := tok_deprel t ]}.
Proof.
  intros Hh Hne Hlater. exists (build_graph (s1 ++ t :: s2)).
  split; [apply build_dependency_graph_spec|].
  apply edge_label_last; [by apply governor_Some|].
  intros t' Ht' Hid [Hh' _]%governor_Some. by apply (Hlater t').
Qed.

Lemma build_last_relation_wins_witness :
  ∃ G, build_dependency_graph relabelled [] = (Ok 0%nat, [G])
       ∧ edges G !! (2, 1) = Some {[ "label" := "amod" ]}.
Proof.
  apply (build_last_relation_wins
           [mk 1 "a" "DET" (Some 2) "det"; mk 2 "b" "NOUN" (Some 0) "root"]
           (mk 1 "c" "ADJ" (Some 2) "amod") [] 2 []).
  - reflexivity.
  - lia.
  - intros t' Ht'. by apply elem_of_nil in Ht'.
Defined.

(** X5: with unique ids, a token whose head is [None] has its node and no
    incoming edge, like a token with head [0]. *)
Theorem build_headless_token sentence (h : Heap) t :
  NoDup (ids sentence) → t ∈ sentence → tok_head t = None →
  ∃ G, build_dependency_graph sentence h = (Ok (List.length h), h ++ [G])
       ∧ node G !! tok_id t = Some {[ "label" := node_label t ]}
       ∧ (∀ u, edges G !! (u, tok_id t) = None)
       ∧ in_degree G (tok_id t) = 0%nat.
Proof.
  intros Hs Ht Hh. exists (build_graph sentence).
  assert (governor t = None) as Hg by (unfold governor; by rewrite Hh).
  split; [apply build_dependency_graph_spec|]. split; [|split].
  - by apply node_of_token.
  - intros u.
    destruct (edges (build_graph sentence) !! (u, tok_id t)) as [d|] eqn:E; [|done].
    apply edge_origin in E as (t' & Ht' & Hid & Hg').
    assert (t' = t) as -> by by apply (NoDup_ids_inj sentence). congruence.
  - by apply in_degree_root.
Qed.

Lemma build_headless_token_witness :
  ∃ G, build_dependency_graph headless [] = (Ok 0%nat, [G])
       ∧ node G !! 1 = Some {[ "label" := "Oh/INTJ" ]}
       ∧ (∀ u, edges G !! (u, 1) = None)
       ∧ in_degree G 1 = 0%nat.
Proof.
  apply (build_headless_token headless [] (mk 1 "Oh" "INTJ" None "_")).
  - unfold ids, headless. simpl. repeat constructor; set_solver.
  - unfold headless. set_solver.
  - reflexivity.
Defined.

(** X6: a head that is present, not [0] and no token's id becomes a node
    without attributes: it has no label for the renderer to print. *)
Theorem build_dangling_head_unlabelled sentence (h : Heap) t g :
  t ∈ sentence → tok_head t = Some g → g ≠ 0 → g ∉ ids sentence →
  ∃ G, build_dependency_graph sentence h = (Ok (List.length h), h ++ [G])
       ∧ node G !! g = Some ∅
       ∧ get_node_attributes G "label" !! g = None
       ∧ is_Some (edges G !! (g, tok_id t)).
Proof.
  intros Ht Hh Hg Hid. exists (build_graph sentence).
  split; [apply build_dependency_graph_spec|].
  assert (governor t = Some g) as Hgov by by apply governor_Some.
  assert (node (build_graph sentence) !! g = Some ∅) as Hnode.
  { assert (g ∈ dom (node (build_graph sentence))) as [d Hd]%elem_of_dom.
    { rewrite dom_nodes, elem_of_union, !elem_of_list_to_set. right.
      apply list_elem_of_omap. eauto. }
    pose proof (node_unlabelled sentence g Hid) as Hu.
    rewrite Hd in Hu. simpl in Hu. by rewrite Hd, Hu. }
  split; [done|]. split.
  - unfold get_node_attributes. by rewrite lookup_omap, Hnode.
  - by apply edge_of_any_token.
Qed.

Lemma build_dangling_head_unlabelled_witness :
  ∃ G, build_dependency_graph dangling [] = (Ok 0%nat, [G])
       ∧ node G !! 99 = Some ∅
       ∧ get_node_attributes G "label" !! 99 = None
       ∧ is_Some (edges G !! (99, 1)).
Proof.
  apply (build_dangling_head_unlabelled dangling [] (mk 1 "X" "NOUN" (Some 99) "dep") 99).
  - unfold dangling. set_solver.
  - reflexivity.
  - lia.
  - unfold ids, dangling. simpl. set_solver.
Defined.

(** X7: with unique ids, the out-degree of a node is the number of tokens
    that name it as their head. *)
Theorem build_out_degree sentence (h : Heap) head :
  NoDup (ids sentence) → head ≠ 0 →
  ∃ G, build_dependency_graph sentence h = (Ok (List.length h), h ++ [G])
       ∧ out_degree G head
         = List.length (filter (λ t, tok_head t = Some head) sentence).
Proof.
  intros Hs Hne. exists (build_graph sentence).
  split; [apply build_dependency_graph_spec|].
  rewrite out_degree_governed by done. f_equal.
  apply list_filter_iff. intros t. rewrite governor_Some. naive_solver.
Qed.

Lemma build_out_degree_witness :
  ∃ G, build_dependency_graph dogs_run [] = (Ok 0%nat, [G])
       ∧ out_degree G 2 = 1%nat.
Proof.
  apply (build_out_degree dogs_run [] 2).
  - unfold ids, dogs_run. simpl. repeat constructor; set_solver.
  - lia.
Defined.

(** * More about the renderer *)

Lemma collect_inr {A B} (f : A → option B) l bs :
  collect f l = inr bs → List.length bs = List.length l.
Proof.
  revert bs. induction l as [|a l IH]; intros bs; simpl.
  - by intros [= <-].
  - destruct (f a); [|done]. destruct (collect f l) as [|bs']; [done|].
    intros [= <-]. simpl. by rewrite (IH bs').
Qed.

Lemma omap_zip_with_Some {A B C D} (F : A → B → C) (g : C → option D)
    (k : A → D) l bs :
  List.length bs = List.length l →
  (∀ a b, g (F a b) = Some (k a)) →
  omap g (zip_with F l bs) = k <$> l.
Proof.
  intros Hlen Hg. revert bs Hlen.
  induction l as [|a l IH]; intros [|b bs] Hlen; simpl in *; try done.
  rewrite Hg. f_equal. apply IH. lia.
Qed.

Lemma omap_zip_with_None {A B C D} (F : A → B → C) (g : C → option D) l bs :
  (∀ a b, g (F a b) = None) → omap g (zip_with F l bs) = [].
Proof.
  intros Hg. revert bs. induction l as [|a l IH]; intros [|b bs]; simpl; try done.
  by rewrite Hg.
Qed.

Lemma output_path_not_empty output_dir sent_id :
  (String.length
     (os_path_join output_dir ("dependency_graph_" +:+ sent_id +:+ ".png")) =? 0)%nat
  = false.
Proof.
  unfold os_path_join. simpl.
  destruct ((String.length output_dir =? 0)%nat || endswith_sep output_dir);
    destruct output_dir; done.
Qed.

Section RendererMore.
Context {Pos Rng : Type}.
Variable fruchterman_reingold : DiGraph → Q → nat → Rng → (Z → Pos) * Rng.
Variable center : Pos.

(** What the four drawing calls add, for a graph with a position for
    every node. *)
Lemma draws_everything G (pos : gmap Z Pos) :
  wf G → dom pos = dom (node G) →
  ∃ a1 a2 a3 a4,
    draw_networkx_nodes (Rng := Rng) G pos "lightblue" 1000 = add_artists a1
    ∧ draw_networkx_edges (Rng := Rng) G pos "->" 20 = add_artists a2
    ∧ draw_networkx_labels (Rng := Rng) G pos (get_node_attributes G "label") 10
      = add_artists a3
    ∧ draw_networkx_edge_labels (Rng := Rng) G pos
        (get_edge_attributes G "label") 8
      = add_artists a4
    ∧ ∀ sent_id,
        marker_nodes (drawn_figure sent_id (((a1 ++ a2) ++ a3) ++ a4))
        = (map_to_list (node G)).*1
        ∧ arrow_edges (drawn_figure sent_id (((a1 ++ a2) ++ a3) ++ a4))
          = (map_to_list (edges G)).*1
        ∧ node_texts (drawn_figure sent_id (((a1 ++ a2) ++ a3) ++ a4))
          = map_to_list (get_node_attributes G "label")
        ∧ edge_texts (drawn_figure sent_id (((a1 ++ a2) ++ a3) ++ a4))
          = map_to_list (get_edge_attributes G "label").
Proof using Type.
  intros HG Hpos.
  destruct (draw_networkx_nodes_ok (Rng := Rng) G pos Hpos "lightblue" 1000) as [b1 H1].
  destruct (draw_networkx_edges_ok (Rng := Rng) G pos HG Hpos "->" 20) as [b2 H2].
  destruct (draw_networkx_labels_ok (Rng := Rng) G pos Hpos 10) as [b3 H3].
  destruct (draw_networkx_edge_labels_ok (Rng := Rng) G pos HG Hpos 8) as [b4 H4].
  clear H1 H2 H3 H4 b1 b2 b3 b4.
  unfold draw_networkx_nodes, draw_networkx_edges, draw_networkx_labels,
    draw_networkx_edge_labels.
  destruct (collect (pos !!.) _) as [n|xy1] eqn:E1.
  { apply collect_inl in E1 as [Hn%elem_of_keys Hnone].
    by apply (pos_of_node G pos Hpos) in Hn. }
  destruct (collect (edge_xy pos) _) as [e|xy2] eqn:E2.
  { apply collect_inl in E2 as [He%elem_of_keys Hnone].
    by apply (edge_xy_of_edge G pos HG Hpos) in He. }
  destruct (collect (λ item, pos !! item.1) _) as [[n l]|xy3] eqn:E3.
  { apply collect_inl in E3 as [Hn%elem_of_map_to_list Hnone]. exfalso.
    unfold get_node_attributes in Hn. rewrite lookup_omap in Hn.
    simpl in Hnone. apply (pos_of_node G pos Hpos n); [|done].
    destruct (node G !! n); [eauto|done]. }
  destruct (collect (λ item, edge_xy pos item.1) _) as [[e l]|xy4] eqn:E4.
  { apply collect_inl in E4 as [He%elem_of_map_to_list Hnone]. exfalso.
    unfold get_edge_attributes in He. rewrite lookup_omap in He.
    simpl in Hnone. apply (edge_xy_of_edge G pos HG Hpos e); [|done].
    destruct (edges G !! e); [eauto|done]. }
  apply collect_inr in E1, E2, E3, E4.
  eexists _, _, _, _. do 4 (split; [reflexivity|]). intros sent_id.
  unfold marker_nodes, arrow_edges, node_texts, edge_texts, drawn_figure.
  cbn [artists]. rewrite !omap_app.
  split; [|split; [|split]].
  - rewrite (omap_zip_with_Some _ _ id _ xy1); [|done|done].
    rewrite !omap_zip_with_None by done.
    by rewrite list_fmap_id, !(right_id_L [] (++)).
  - rewrite (omap_zip_with_Some _ _ id _ xy2); [|done|by intros [??] ?].
    rewrite !omap_zip_with_None by done.
    by rewrite list_fmap_id, !(right_id_L [] (++)).
  - rewrite (omap_zip_with_Some _ _ id _ xy3); [|done|by intros [??] ?].
    rewrite !omap_zip_with_None by done.
    by rewrite list_fmap_id, !(right_id_L [] (++)).
  - rewrite (omap_zip_with_Some _ _ id _ xy4); [|done|by intros [[??] ?] ?].
    rewrite !omap_zip_with_None by done.
    by rewrite list_fmap_id.
Qed.
End RendererMore.

Ltac pyplot_steps :=
  unfold plt_figure, add_artists, plt_title, plt_axis_off, plt_tight_layout,
    on_current, modify; cbv beta iota;
  unfold plt_savefig, mbind, M_bind, on_current, modify, write_image;
  cbv beta iota.

Ltac world_fields :=
  cbv beta iota delta [set_figures set_screen set_log set_files set_rng set_dirs
    fs_dirs fs_files os_refuses screen figures log rng head default drop
    new_figure figsize artists title axis_on tight drawn_figure str].

Section RendererResults.
Context {Pos Rng : Type}.
Variable fruchterman_reingold : DiGraph → Q → nat → Rng → (Z → Pos) * Rng.
Variable center : Pos.

(** The whole call, once the directory is accepted and the drawing calls
    are known to add [a1] to [a4]: it ends at [plt.savefig], well or
    badly. *)
Lemma visualize_graph_run G sent_id output_dir (w : World) pos r a1 a2 a3 a4 :
  refusal output_dir w = None →
  spring_layout fruchterman_reingold center G (1 # 2) 50
    (set_dirs (λ dirs, list_to_set (makedirs_creates output_dir w) ∪ dirs) w)
  = (Ok pos, set_rng r (set_dirs (λ dirs, list_to_set (makedirs_creates output_dir w) ∪ dirs) w)) →
  draw_networkx_nodes (Rng := Rng) G pos "lightblue" 1000 = add_artists a1 →
  draw_networkx_edges (Rng := Rng) G pos "->" 20 = add_artists a2 →
  draw_networkx_labels (Rng := Rng) G pos (get_node_attributes G "label") 10
  = add_artists a3 →
  draw_networkx_edge_labels (Rng := Rng) G pos (get_edge_attributes G "label") 8
  = add_artists a4 →
  visualize_graph fruchterman_reingold center G sent_id output_dir w
  = match refusal
            (os_path_join output_dir ("dependency_graph_" +:+ sent_id +:+ ".png")) w
    with
    | None =>
        (Ok tt,
         {| fs_dirs := list_to_set (makedirs_creates output_dir w) ∪ fs_dirs w;
            fs_files :=
              <[os_path_join output_dir ("dependency_graph_" +:+ sent_id +:+ ".png")
                := {| img_figure := drawn_figure sent_id (((a1 ++ a2) ++ a3) ++ a4);
                      img_format := "png"; img_dpi := 300 |}]>
                (fs_files w);
            os_refuses := os_refuses w;
            screen := screen w
                      ++ drawn_figure sent_id (((a1 ++ a2) ++ a3) ++ a4)
                         :: figures w;
            figures := figures w;
            log := log w ++
                   [(INFO, "Saved graph to " +:+
                      os_path_join output_dir
                        ("dependency_graph_" +:+ sent_id +:+ ".png"))];
            rng := r |})
    | Some strerror =>
        (Raise (OSError strerror),
         {| fs_dirs := list_to_set (makedirs_creates output_dir w) ∪ fs_dirs w;
            fs_files := fs_files w;
            os_refuses := os_refuses w;
            screen := screen w;
            figures := drawn_figure sent_id (((a1 ++ a2) ++ a3) ++ a4) :: figures w;
            log := log w ++ [(ERROR, "Error visualizing graph: " +:+ strerror)];
            rng := r |})
    end.
Proof using Type.
  intros Hdir Hlay H1 H2 H3 H4.
  unfold visualize_graph, try_except_reraise, mbind, M_bind.
  rewrite os_makedirs_run, Hdir, Hlay, H1, H2, H3, H4.
  pyplot_steps. erewrite (refusal_fs w); [|reflexivity].
  destruct (refusal (os_path_join output_dir _) w) as [strerror|].
  - unfold logger_error, modify. world_fields. reflexivity.
  - unfold logger_info, plt_show, plt_close, modify. cbv beta iota.
    world_fields. reflexivity.
Qed.

(** The call when [os.makedirs] raises. *)
Lemma visualize_graph_refused_dir G sent_id output_dir (w : World) strerror :
  refusal output_dir w = Some strerror →
  visualize_graph fruchterman_reingold center G sent_id output_dir w
  = (Raise (OSError strerror),
     {| fs_dirs := list_to_set (makedirs_keeps output_dir w) ∪ fs_dirs w;
        fs_files := fs_files w; os_refuses := os_refuses w;
        screen := screen w; figures := figures w;
        log := log w ++ [(ERROR, "Error visualizing graph: " +:+ strerror)];
        rng := rng w |}).
Proof using Type.
  intros Hdir. unfold visualize_graph, try_except_reraise, mbind, M_bind.
  rewrite os_makedirs_run, Hdir. reflexivity.
Qed.

(** X8: when the operating system refuses the output directory, the call
    raises that error for every graph and writes one error line to the log.
    Of the missing directories above the output directory those above the
    refused part have been made and stay; the output directory itself is
    not made, and nothing else changes: no file, no figure, nothing on the
    screen, the generator untouched. *)
Theorem visualize_makedirs_refused G sent_id output_dir (w : World) strerror :
  refusal output_dir w = Some strerror →
  visualize_graph fruchterman_reingold center G sent_id output_dir w
  = (Raise (OSError strerror),
     {| fs_dirs := list_to_set (makedirs_keeps output_dir w) ∪ fs_dirs w;
        fs_files := fs_files w; os_refuses := os_refuses w;
        screen := screen w; figures := figures w;
        log := log w ++ [(ERROR, "Error visualizing graph: " +:+ strerror)];
        rng := rng w |}).
Proof using Type. apply visualize_graph_refused_dir. Qed.

(** X9: when the directory is accepted but the picture cannot be written,
    the call raises the error of [plt.savefig] and logs it; the output
    directory and the missing directories above it have been made, no file
    is written and nothing is shown, and the figure it drew stays open,
    since [plt.close()] is not reached. *)
Theorem visualize_savefig_refused G sent_id output_dir (w : World) strerror :
  wf G →
  refusal output_dir w = None →
  refusal (os_path_join output_dir ("dependency_graph_" +:+ sent_id +:+ ".png")) w
  = Some strerror →
  ∃ fig rng',
    visualize_graph fruchterman_reingold center G sent_id output_dir w
    = (Raise (OSError strerror),
       {| fs_dirs := list_to_set (makedirs_creates output_dir w) ∪ fs_dirs w;
          fs_files := fs_files w;
          os_refuses := os_refuses w;
          screen := screen w;
          figures := fig :: figures w;
          log := log w ++ [(ERROR, "Error visualizing graph: " +:+ strerror)];
          rng := rng' |})
    ∧ List.length (marker_nodes fig) = number_of_nodes G.
Proof using Type.
  intros HG Hdir Hpath.
  destruct (spring_layout_ok fruchterman_reingold center G (1 # 2) 50
              (set_dirs (λ dirs, list_to_set (makedirs_creates output_dir w) ∪ dirs) w))
    as (pos & r & Hlay & Hdom).
  destruct (draws_everything (Rng := Rng) G pos HG Hdom)
    as (a1 & a2 & a3 & a4 & H1 & H2 & H3 & H4 & Hshow).
  exists (drawn_figure sent_id (((a1 ++ a2) ++ a3) ++ a4)), r.
  rewrite (visualize_graph_run G sent_id output_dir w pos r a1 a2 a3 a4) by done.
  rewrite Hpath. split; [done|].
  destruct (Hshow sent_id) as (-> & _).
  unfold number_of_nodes. by rewrite length_fmap, length_map_to_list.
Qed.

(** What a successful call stores and shows. *)
Lemma visualize_graph_shows G sent_id output_dir (w : World) :
  wf G →
  refusal output_dir w = None →
  refusal (os_path_join output_dir ("dependency_graph_" +:+ sent_id +:+ ".png")) w
  = None →
  ∃ fig w',
    visualize_graph fruchterman_reingold center G sent_id output_dir w = (Ok tt, w')
    ∧ fs_files w'
        !! os_path_join output_dir ("dependency_graph_" +:+ sent_id +:+ ".png")
      = Some {| img_figure := fig; img_format := "png"; img_dpi := 300 |}
    ∧ screen w' = screen w ++ fig :: figures w
    ∧ NoDup (marker_nodes fig)
    ∧ (∀ n, n ∈ marker_nodes fig ↔ is_Some (node G !! n))
    ∧ NoDup (arrow_edges fig)
    ∧ (∀ e, e ∈ arrow_edges fig ↔ is_Some (edges G !! e))
    ∧ NoDup (node_texts fig)
    ∧ (∀ n text, (n, text) ∈ node_texts fig
                 ↔ node G !! n ≫= (.!! "label") = Some text)
    ∧ NoDup (edge_texts fig)
    ∧ (∀ e text, (e, text) ∈ edge_texts fig
                 ↔ edges G !! e ≫= (.!! "label") = Some text).
Proof using Type.
  intros HG Hdir Hpath.
  destruct (spring_layout_ok fruchterman_reingold center G (1 # 2) 50
              (set_dirs (λ dirs, list_to_set (makedirs_creates output_dir w) ∪ dirs) w))
    as (pos & r & Hlay & Hdom).
  destruct (draws_everything (Rng := Rng) G pos HG Hdom)
    as (a1 & a2 & a3 & a4 & H1 & H2 & H3 & H4 & Hshow).
  eexists (drawn_figure sent_id (((a1 ++ a2) ++ a3) ++ a4)), _.
  rewrite (visualize_graph_run G sent_id output_dir w pos r a1 a2 a3 a4) by done.
  rewrite Hpath. split; [reflexivity|].
  cbn [fs_files screen]. split; [by rewrite lookup_insert_eq|]. split; [done|].
  destruct (Hshow sent_id) as (-> & -> & -> & ->).
  split; [apply NoDup_fst_map_to_list|]. split.
  { intros n. split; [apply elem_of_keys|].
    intros [d Hd]. apply list_elem_of_fmap. exists (n, d).
    split; [done|]. by apply elem_of_map_to_list. }
  split; [apply NoDup_fst_map_to_list|]. split.
  { intros e. split; [apply elem_of_keys|].
    intros [d Hd]. apply list_elem_of_fmap. exists (e, d).
    split; [done|]. by apply elem_of_map_to_list. }
  split; [apply NoDup_map_to_list|]. split.
  { intros n text. unfold get_node_attributes.
    by rewrite elem_of_map_to_list, lookup_omap. }
  split; [apply NoDup_map_to_list|].
  intros e text. unfold get_edge_attributes.
  by rewrite elem_of_map_to_list, lookup_omap.
Qed.

(** X10: a successful call draws every node and every edge exactly once,
    prints the label of every node that has one, and the label of every
    edge that has one; the picture it stores is the picture it shows. *)
Theorem visualize_graph_draws_everything G sent_id output_dir (w : World) :
  wf G →
  refusal output_dir w = None →
  refusal (os_path_join output_dir ("dependency_graph_" +:+ sent_id +:+ ".png")) w
  = None →
  ∃ fig w',
    visualize_graph fruchterman_reingold center G sent_id output_dir w = (Ok tt, w')
    ∧ fs_files w'
        !! os_path_join output_dir ("dependency_graph_" +:+ sent_id +:+ ".png")
      = Some {| img_figure := fig; img_format := "png"; img_dpi := 300 |}
    ∧ screen w' = screen w ++ fig :: figures w
    ∧ NoDup (marker_nodes fig)
    ∧ (∀ n, n ∈ marker_nodes fig ↔ is_Some (node G !! n))
    ∧ NoDup (arrow_edges fig)
    ∧ (∀ e, e ∈ arrow_edges fig ↔ is_Some (edges G !! e))
    ∧ NoDup (node_texts fig)
    ∧ (∀ n text, (n, text) ∈ node_texts fig
                 ↔ node G !! n ≫= (.!! "label") = Some text)
    ∧ NoDup (edge_texts fig)
    ∧ (∀ e text, (e, text) ∈ edge_texts fig
                 ↔ edges G !! e ≫= (.!! "label") = Some text).
Proof using Type. apply visualize_graph_shows. Qed.

(** X11: building a graph from a sentence with unique ids and rendering it
    gives a picture with one marker for every id and every head in use,
    the text [form/upos] at the node of every token and at no other node,
    and the relation along the edge of every token with a head. *)
Theorem rendered_sentence sentence (h : Heap) sent_id output_dir (w : World) :
  NoDup (ids sentence) →
  refusal output_dir w = None →
  refusal (os_path_join output_dir ("dependency_graph_" +:+ sent_id +:+ ".png")) w
  = None →
  ∃ G fig w',
    build_dependency_graph sentence h = (Ok (List.length h), h ++ [G])
    ∧ visualize_graph fruchterman_reingold center G sent_id output_dir w
      = (Ok tt, w')
    ∧ fs_files w'
        !! os_path_join output_dir ("dependency_graph_" +:+ sent_id +:+ ".png")
      = Some {| img_figure := fig; img_format := "png"; img_dpi := 300 |}
    ∧ (∀ n, n ∈ marker_nodes fig
            ↔ ∃ t, t ∈ sentence
                   ∧ (tok_id t = n ∨ (tok_head t = Some n ∧ n ≠ 0)))
    ∧ (∀ n text, (n, text) ∈ node_texts fig
                 ↔ ∃ t, t ∈ sentence ∧ tok_id t = n ∧ text = node_label t)
    ∧ (∀ u v text, ((u, v), text) ∈ edge_texts fig
                   ↔ ∃ t, t ∈ sentence ∧ tok_id t = v ∧ tok_head t = Some u
                          ∧ u ≠ 0 ∧ text = tok_deprel t).
Proof using Type.
  intros Hs Hdir Hpath.
  destruct (visualize_graph_shows (build_graph sentence) sent_id output_dir w
              (build_graph_wf sentence) Hdir Hpath)
    as (fig & w' & Hrun & Hfile & _ & _ & Hmark & _ & _ & _ & Htext & _ & Hetext).
  exists (build_graph sentence), fig, w'.
  split; [apply build_dependency_graph_spec|]. do 2 (split; [done|]).
  split; [|split].
  - intros n. rewrite Hmark, <-elem_of_dom, dom_nodes, elem_of_union.
    rewrite !elem_of_list_to_set. unfold ids, governors.
    rewrite list_elem_of_fmap, list_elem_of_omap. split.
    + intros [(t & -> & Ht) | (t & Ht & Hg)]; exists t; split; auto.
      right. by apply governor_Some.
    + intros (t & Ht & [<- | Hg]); [left; eauto|].
      right. exists t. split; [done|]. by apply governor_Some.
  - intros n text. rewrite Htext. split.
    + destruct (node (build_graph sentence) !! n) as [d|] eqn:Hn; [|done].
      simpl. intros Hd. destruct (decide (n ∈ ids sentence)) as [Hin|Hout].
      * apply list_elem_of_fmap in Hin as (t & -> & Ht). exists t.
        rewrite node_of_token in Hn by done. injection Hn as <-.
        unfold node_attrs in Hd. rewrite lookup_singleton_eq in Hd.
        split; [done|]. split; congruence.
      * pose proof (node_unlabelled sentence n Hout) as Hu.
        rewrite Hn in Hu. simpl in Hu. subst d. by rewrite lookup_empty in Hd.
    + intros (t & Ht & <- & ->). rewrite node_of_token by done. simpl.
      apply lookup_singleton_eq.
  - intros u v text. rewrite Hetext. split.
    + destruct (edges (build_graph sentence) !! (u, v)) as [d|] eqn:He; [|done].
      simpl. intros Hd.
      destruct (edge_origin _ _ _ _ He) as (t & Ht & <- & Hg).
      rewrite (edge_of_token sentence t u) in He by done. injection He as <-.
      unfold edge_attrs in Hd. rewrite lookup_singleton_eq in Hd.
      apply governor_Some in Hg as [? ?]. exists t. repeat split; congruence.
    + intros (t & Ht & <- & Hh & Hu & ->).
      rewrite (edge_of_token sentence t u); [|done..|by apply governor_Some].
      simpl. apply lookup_singleton_eq.
Qed.

(** X12: a second call with the same arguments, right after a successful
    one, succeeds as well: the directory that exists and the file that
    exists are accepted, no directory and no file name is added, no figure
    is left open; the screen and the log grow once more. *)
Theorem visualize_graph_again G sent_id output_dir (w : World) :
  wf G →
  refusal output_dir w = None →
  refusal (os_path_join output_dir ("dependency_graph_" +:+ sent_id +:+ ".png")) w
  = None →
  ∃ w1 w2,
    visualize_graph fruchterman_reingold center G sent_id output_dir w = (Ok tt, w1)
    ∧ visualize_graph fruchterman_reingold center G sent_id output_dir w1
      = (Ok tt, w2)
    ∧ fs_dirs w2 = fs_dirs w1
    ∧ dom (fs_files w2) = dom (fs_files w1)
    ∧ figures w2 = figures w
    ∧ List.length (screen w2) = (List.length (screen w1) + 1 + List.length (figures w))%nat
    ∧ List.length (log w2) = (List.length (log w) + 2)%nat.
Proof using Type.
  intros HG Hdir Hpath.
  pose proof Hpath as Hp.
  destruct (spring_layout_ok fruchterman_reingold center G (1 # 2) 50
              (set_dirs (λ dirs, list_to_set (makedirs_creates output_dir w) ∪ dirs) w))
    as (pos & r & Hlay & Hdom).
  destruct (draws_everything (Rng := Rng) G pos HG Hdom)
    as (a1 & a2 & a3 & a4 & H1 & H2 & H3 & H4 & _).
  pose proof (visualize_graph_run G sent_id output_dir w pos r a1 a2 a3 a4
                Hdir Hlay H1 H2 H3 H4) as Hrun1.
  rewrite Hp in Hrun1.
  match type of Hrun1 with _ = (_, ?x) => set (w1 := x) in * end.
  assert (refusal output_dir w1 = None) as Hdir1
    by (by rewrite (refusal_fs w)).
  destruct (spring_layout_ok fruchterman_reingold center G (1 # 2) 50
              (set_dirs (λ dirs, list_to_set (makedirs_creates output_dir w1) ∪ dirs) w1))
    as (pos' & r' & Hlay' & Hdom').
  destruct (draws_everything (Rng := Rng) G pos' HG Hdom')
    as (b1 & b2 & b3 & b4 & H1' & H2' & H3' & H4' & _).
  pose proof (visualize_graph_run G sent_id output_dir w1 pos' r' b1 b2 b3 b4
                Hdir1 Hlay' H1' H2' H3' H4') as Hrun2.
  rewrite (refusal_fs w w1), Hp in Hrun2 by done.
  assert (makedirs_creates output_dir w1 = [output_dir]) as Hagain.
  { apply (makedirs_chain_after w).
    - intros dir Hdir'. subst w1. cbn [fs_dirs]. set_solver.
    - intros path. unfold path_exists. subst w1. cbn [fs_dirs fs_files].
      intros [Hd|Hf]%orb_true_iff; apply orb_true_iff.
      + left. apply bool_decide_eq_true in Hd.
        apply bool_decide_eq_true. set_solver.
      + right. apply bool_decide_eq_true in Hf. apply bool_decide_eq_true.
        rewrite lookup_insert. case_decide; [eauto|done]. }
  assert (output_dir ∈ fs_dirs w1) as Hthere.
  { subst w1. cbn [fs_dirs]. unfold makedirs_creates.
    destruct (makedirs_chain_last w (String.length output_dir) output_dir)
      as [above ->].
    set_solver. }
  rewrite Hagain in Hrun2.
  eexists w1, _. split; [exact Hrun1|]. split; [exact Hrun2|].
  cbn [fs_dirs fs_files figures screen log].
  split; [set_solver|]. subst w1. cbn [fs_dirs fs_files figures screen log].
  split; [|split; [done|]].
  - rewrite !dom_insert_L. set_solver.
  - rewrite !length_app. simpl. split; lia.
Qed.
End RendererResults.

(** ** The renderer on the example worlds, again *)

Lemma visualize_makedirs_refused_witness :
  visualize_graph no_core tt (build_graph dogs_run) "s1" "p/graphs" refusing_world
  = (Raise (OSError "[Errno 36] File name too long: 'p/graphs'"),
     {| fs_dirs := list_to_set (makedirs_keeps "p/graphs" refusing_world)
                   ∪ fs_dirs refusing_world;
        fs_files := fs_files refusing_world;
        os_refuses := os_refuses refusing_world;
        screen := screen refusing_world; figures := figures refusing_world;
        log := log refusing_world
               ++ [(ERROR, "Error visualizing graph: "
                           +:+ "[Errno 36] File name too long: 'p/graphs'")];
        rng := rng refusing_world |}).
Proof.
  apply (visualize_makedirs_refused no_core tt (build_graph dogs_run) "s1"
           "p/graphs" refusing_world).
  reflexivity.
Defined.

Lemma visualize_savefig_refused_witness :
  ∃ fig rng',
    visualize_graph no_core tt (build_graph dogs_run) "s1" "graphs" full_disk_world
    = (Raise (OSError "[Errno 28] No space left on device"),
       {| fs_dirs := {[ "graphs" ]} ∪ fs_dirs full_disk_world;
          fs_files := fs_files full_disk_world;
          os_refuses := os_refuses full_disk_world;
          screen := screen full_disk_world;
          figures := fig :: figures full_disk_world;
          log := log full_disk_world
                 ++ [(ERROR, "Error visualizing graph: "
                             +:+ "[Errno 28] No space left on device")];
          rng := rng' |})
    ∧ List.length (marker_nodes fig) = number_of_nodes (build_graph dogs_run).
Proof.
  apply (visualize_savefig_refused no_core tt (build_graph dogs_run) "s1"
           "graphs" full_disk_world).
  - apply build_graph_wf.
  - reflexivity.
  - reflexivity.
Defined.

Lemma visualize_graph_draws_everything_witness :
  ∃ fig w',
    visualize_graph no_core tt (build_graph dogs_run) "s1" "graphs" fresh_world
    = (Ok tt, w')
    ∧ fs_files w' !! os_path_join "graphs" ("dependency_graph_" +:+ "s1" +:+ ".png")
      = Some {| img_figure := fig; img_format := "png"; img_dpi := 300 |}
    ∧ screen w' = screen fresh_world ++ fig :: figures fresh_world
    ∧ NoDup (marker_nodes fig)
    ∧ (∀ n, n ∈ marker_nodes fig ↔ is_Some (node (build_graph dogs_run) !! n))
    ∧ NoDup (arrow_edges fig)
    ∧ (∀ e, e ∈ arrow_edges fig ↔ is_Some (edges (build_graph dogs_run) !! e))
    ∧ NoDup (node_texts fig)
    ∧ (∀ n text, (n, text) ∈ node_texts fig
                 ↔ node (build_graph dogs_run) !! n ≫= (.!! "label") = Some text)
    ∧ NoDup (edge_texts fig)
    ∧ (∀ e text, (e, text) ∈ edge_texts fig
                 ↔ edges (build_graph dogs_run) !! e ≫= (.!! "label") = Some text).
Proof.
  apply (visualize_graph_draws_everything no_core tt (build_graph dogs_run) "s1"
           "graphs" fresh_world).
  - apply build_graph_wf.
  - reflexivity.
  - reflexivity.
Defined.

Lemma rendered_sentence_witness :
  ∃ G fig w',
    build_dependency_graph dogs_run [] = (Ok 0%nat, [G])
    ∧ visualize_graph no_core tt G "s1" "graphs" fresh_world = (Ok tt, w')
    ∧ fs_files w' !! os_path_join "graphs" ("dependency_graph_" +:+ "s1" +:+ ".png")
      = Some {| img_figure := fig; img_format := "png"; img_dpi := 300 |}
    ∧ (∀ n, n ∈ marker_nodes fig
            ↔ ∃ t, t ∈ dogs_run
                   ∧ (tok_id t = n ∨ (tok_head t = Some n ∧ n ≠ 0)))
    ∧ (∀ n text, (n, text) ∈ node_texts fig
                 ↔ ∃ t, t ∈ dogs_run ∧ tok_id t = n ∧ text = node_label t)
    ∧ (∀ u v text, ((u, v), text) ∈ edge_texts fig
                   ↔ ∃ t, t ∈ dogs_run ∧ tok_id t = v ∧ tok_head t = Some u
                          ∧ u ≠ 0 ∧ text = tok_deprel t).
Proof.
  apply (rendered_sentence no_core tt dogs_run [] "s1" "graphs" fresh_world).
  - unfold ids, dogs_run. simpl. repeat constructor; set_solver.
  - reflexivity.
  - reflexivity.
Defined.

Lemma visualize_graph_again_witness :
  ∃ w1 w2,
    visualize_graph no_core tt (build_graph dogs_run) "s1" "graphs" fresh_world
    = (Ok tt, w1)
    ∧ visualize_graph no_core tt (build_graph dogs_run) "s1" "graphs" w1
      = (Ok tt, w2)
    ∧ fs_dirs w2 = fs_dirs w1
    ∧ dom (fs_files w2) = dom (fs_files w1)
    ∧ figures w2 = figures fresh_world
    ∧ List.length (screen w2)
      = (List.length (screen w1) + 1 + List.length (figures fresh_world))%nat
    ∧ List.length (log w2) = (List.length (log fresh_world) + 2)%nat.
Proof.
  apply (visualize_graph_again no_core tt (build_graph dogs_run) "s1" "graphs"
           fresh_world).
  - apply build_graph_wf.
  - reflexivity.
  - reflexivity.
Defined.

(** * The loader and the program *)

Section ProgramResults.
Context {Pos Rng : Type}.
Variable fruchterman_reingold : DiGraph → Q → nat → Rng → (Z → Pos) * Rng.
Variable center : Pos.
Variable parse_incr : string → PyExn + list (list Token).
Variable image_text : SavedImage (Pos := Pos) → PyExn + string.

Lemma read_missing_run path (s : System (Pos := Pos) (Rng := Rng)) :
  path ∉ fs_dirs (world s) → fs_files (world s) !! path = None →
  disk s !! path = None →
  read_conllu_file parse_incr image_text path s
  = (Raised (FileNotFoundError ("CoNLL-U file not found: " +:+ path)),
     logged (ERROR, "Error reading CoNLL-U file: "
                    +:+ "CoNLL-U file not found: " +:+ path) s).
Proof using Type.
  intros Hdir Himg Hdisk.
  unfold read_conllu_file, try_except_reraise_py, mbind, IO_bind, os_path_exists.
  rewrite (bool_decide_eq_false_2 _ Hdir), Himg, Hdisk.
  rewrite !bool_decide_eq_false_2 by (by intros [? ?]). reflexivity.
Qed.

Lemma read_text_run path (s : System (Pos := Pos) (Rng := Rng)) text :
  path ∉ fs_dirs (world s) → fs_files (world s) !! path = None →
  disk s !! path = Some text →
  read_conllu_file parse_incr image_text path s
  = match parse_incr text with
    | inl e =>
        (Raised e, logged (ERROR, "Error reading CoNLL-U file: " +:+ str_py e) s)
    | inr [] =>
        (Raised (ValueError ("No sentences found in " +:+ path)),
         logged (ERROR, "Error reading CoNLL-U file: "
                        +:+ "No sentences found in " +:+ path) s)
    | inr (first :: _) =>
        (Returned first, logged (INFO, "Parsed CoNLL-U file: " +:+ path) s)
    end.
Proof using Type.
  intros Hdir Himg Hdisk.
  unfold read_conllu_file, try_except_reraise_py, mbind, IO_bind, os_path_exists,
    read_text.
  rewrite (bool_decide_eq_true_2 (is_Some (disk s !! path)))
    by (rewrite Hdisk; eauto).
  rewrite orb_true_r. cbn [negb]. unfold mret, IO_ret. cbv beta iota.
  rewrite (bool_decide_eq_false_2 _ Hdir), Himg, Hdisk. cbv beta iota.
  destruct (parse_incr text) as [e|[|first rest]]; reflexivity.
Qed.
(** ** The loader: results *)

(** X13: when nothing exists at the path, the loader raises
    [FileNotFoundError] with the message [CoNLL-U file not found: <path>],
    writes that error to the log and changes nothing else. *)
Theorem read_conllu_file_missing path (s : System (Pos := Pos) (Rng := Rng)) :
  path ∉ fs_dirs (world s) → fs_files (world s) !! path = None →
  disk s !! path = None →
  read_conllu_file parse_incr image_text path s
  = (Raised (FileNotFoundError ("CoNLL-U file not found: " +:+ path)),
     logged (ERROR, "Error reading CoNLL-U file: "
                    +:+ "CoNLL-U file not found: " +:+ path) s).
Proof using Type. apply read_missing_run. Qed.

(** X14: when the file parses to one sentence or more, the loader returns
    the first sentence, whatever follows it, and logs
    [Parsed CoNLL-U file: <path>]. *)
Theorem read_conllu_file_first_sentence path (s : System (Pos := Pos) (Rng := Rng))
    text first rest :
  path ∉ fs_dirs (world s) → fs_files (world s) !! path = None →
  disk s !! path = Some text →
  parse_incr text = inr (first :: rest) →
  read_conllu_file parse_incr image_text path s
  = (Returned first, logged (INFO, "Parsed CoNLL-U file: " +:+ path) s).
Proof using Type.
  intros Hdir Himg Hdisk Hparse.
  by rewrite (read_text_run path s text), Hparse.
Qed.

(** X15: when the file parses to no sentence at all, the loader raises
    [ValueError] with the message [No sentences found in <path>] and logs
    the error. *)
Theorem read_conllu_file_no_sentences path (s : System (Pos := Pos) (Rng := Rng))
    text :
  path ∉ fs_dirs (world s) → fs_files (world s) !! path = None →
  disk s !! path = Some text →
  parse_incr text = inr [] →
  read_conllu_file parse_incr image_text path s
  = (Raised (ValueError ("No sentences found in " +:+ path)),
     logged (ERROR, "Error reading CoNLL-U file: "
                    +:+ "No sentences found in " +:+ path) s).
Proof using Type.
  intros Hdir Himg Hdisk Hparse.
  by rewrite (read_text_run path s text), Hparse.
Qed.

(** X16: an exception of the parser is logged with its text and raised
    again unchanged. *)
Theorem read_conllu_file_parser_error path (s : System (Pos := Pos) (Rng := Rng))
    text e :
  path ∉ fs_dirs (world s) → fs_files (world s) !! path = None →
  disk s !! path = Some text →
  parse_incr text = inl e →
  read_conllu_file parse_incr image_text path s
  = (Raised e, logged (ERROR, "Error reading CoNLL-U file: " +:+ str_py e) s).
Proof using Type.
  intros Hdir Himg Hdisk Hparse.
  by rewrite (read_text_run path s text), Hparse.
Qed.

(** X17: whatever the path and the system, a call of the loader adds
    exactly one line to the log and changes nothing else; the line is an
    [INFO] line exactly when a sentence is returned. *)
Theorem read_conllu_file_only_logs path (s : System (Pos := Pos) (Rng := Rng)) :
  ∃ outcome line,
    read_conllu_file parse_incr image_text path s = (outcome, logged line s)
    ∧ (line.1 = INFO ↔ ∃ sentence, outcome = Returned sentence).
Proof using Type.
  unfold read_conllu_file, try_except_reraise_py, mbind, IO_bind, os_path_exists,
    read_text, mret, IO_ret, raise_py.
  destruct (bool_decide (path ∈ fs_dirs (world s))) eqn:E1.
  { cbn [orb negb]. cbv beta iota. rewrite E1. cbv beta iota.
    eexists _, _. split; [reflexivity|]. split; [done|]. by intros [? ?]. }
  destruct (fs_files (world s) !! path) as [image|] eqn:E2.
  { rewrite (bool_decide_eq_true_2 (is_Some (Some image))) by eauto.
    cbn [orb negb]. cbv beta iota. rewrite E1, E2.
    destruct (image_text image) as [e|text]; cbv beta iota.
    { eexists _, _. split; [reflexivity|]. split; [done|]. by intros [? ?]. }
    destruct (parse_incr text) as [e|[|first rest]]; cbv beta iota;
      eexists _, _; (split; [reflexivity|]); split; try done; eauto;
      by intros [? ?]. }
  rewrite (bool_decide_eq_false_2 (is_Some None)) by (by intros [? ?]).
  cbn [orb]. destruct (disk s !! path) as [text|] eqn:E3.
  - rewrite (bool_decide_eq_true_2 (is_Some (Some text))) by eauto. cbn [negb].
    cbv beta iota. rewrite E1, E2, E3. cbv beta iota.
    destruct (parse_incr text) as [e|[|first rest]]; cbv beta iota;
      eexists _, _; (split; [reflexivity|]); split; try done; eauto;
      by intros [? ?].
  - rewrite (bool_decide_eq_false_2 (is_Some None)) by (by intros [? ?]).
    cbn [negb]. cbv beta iota.
    eexists _, _. split; [reflexivity|]. split; [done|]. by intros [? ?].
Qed.

(** ** The program: results *)

(** A successful rendering, with the world it leaves. *)
Lemma visualize_graph_ok G sent_id output_dir (w : World) :
  wf G →
  refusal output_dir w = None →
  refusal (os_path_join output_dir ("dependency_graph_" +:+ sent_id +:+ ".png")) w
  = None →
  ∃ fig rng',
    visualize_graph fruchterman_reingold center G sent_id output_dir w
    = (Ok tt,
       {| fs_dirs := list_to_set (makedirs_creates output_dir w) ∪ fs_dirs w;
          fs_files :=
            <[os_path_join output_dir ("dependency_graph_" +:+ sent_id +:+ ".png")
              := {| img_figure := fig; img_format := "png"; img_dpi := 300 |}]>
              (fs_files w);
          os_refuses := os_refuses w;
          screen := screen w ++ fig :: figures w;
          figures := figures w;
          log := log w ++
                 [(INFO, "Saved graph to " +:+
                    os_path_join output_dir
                      ("dependency_graph_" +:+ sent_id +:+ ".png"))];
          rng := rng' |})
    ∧ ∀ n, n ∈ marker_nodes fig ↔ is_Some (node G !! n).
Proof using Type.
  intros HG Hdir Hpath.
  destruct (spring_layout_ok fruchterman_reingold center G (1 # 2) 50
              (set_dirs (λ dirs, list_to_set (makedirs_creates output_dir w) ∪ dirs) w))
    as (pos & r & Hlay & Hdom).
  destruct (draws_everything (Rng := Rng) G pos HG Hdom)
    as (a1 & a2 & a3 & a4 & H1 & H2 & H3 & H4 & Hshow).
  exists (drawn_figure sent_id (((a1 ++ a2) ++ a3) ++ a4)), r.
  rewrite (visualize_graph_run fruchterman_reingold center G sent_id output_dir w
             pos r a1 a2 a3 a4) by done.
  rewrite Hpath. split; [done|]. destruct (Hshow sent_id) as (-> & _).
  intros n. split; [apply elem_of_keys|].
  intros [d Hd]. apply list_elem_of_fmap. exists (n, d).
  split; [done|]. by apply elem_of_map_to_list.
Qed.

Lemma main_paths :
  main fruchterman_reingold center parse_incr image_text
  = (sentence ← read_conllu_file parse_incr image_text main_conllu_path;
     graph ← in_heap (build_dependency_graph sentence);
     G ← deref graph;
     in_world (visualize_graph fruchterman_reingold center G main_sent_id
                 main_output_dir)).
Proof using Type. reflexivity. Qed.

Lemma main_after_read (s : System (Pos := Pos) (Rng := Rng)) text first rest :
  main_conllu_path ∉ fs_dirs (world s) →
  fs_files (world s) !! main_conllu_path = None →
  disk s !! main_conllu_path = Some text →
  parse_incr text = inr (first :: rest) →
  main fruchterman_reingold center parse_incr image_text s
  = in_world
      (visualize_graph fruchterman_reingold center (build_graph first)
         main_sent_id main_output_dir)
      {| disk := disk s; heap := heap s ++ [build_graph first];
         world := set_log (λ l, l ++ [(INFO, "Parsed CoNLL-U file: " +:+ main_conllu_path)])
                    (world s) |}.
Proof using Type.
  intros Hdir Himg Hdisk Hparse. rewrite main_paths.
  unfold mbind at 1. unfold IO_bind at 1.
  rewrite (read_text_run main_conllu_path s text Hdir Himg Hdisk), Hparse.
  unfold mbind at 1. unfold IO_bind at 1. unfold in_heap at 1, logged.
  cbn [heap disk world]. rewrite build_dependency_graph_spec.
  unfold mbind at 1. unfold IO_bind at 1. unfold deref. cbn [heap].
  by rewrite lookup_app_r, Nat.sub_diag by lia.
Qed.

(** X18: when the input file of [main] does not exist, [main] raises
    [FileNotFoundError] at once: no graph is built, no directory or file is
    created, nothing is drawn or shown; one error line is logged. *)
Theorem main_missing_file (s : System (Pos := Pos) (Rng := Rng)) :
  main_conllu_path ∉ fs_dirs (world s) →
  fs_files (world s) !! main_conllu_path = None →
  disk s !! main_conllu_path = None →
  main fruchterman_reingold center parse_incr image_text s
  = (Raised (FileNotFoundError ("CoNLL-U file not found: " +:+ main_conllu_path)),
     logged (ERROR, "Error reading CoNLL-U file: "
                    +:+ "CoNLL-U file not found: " +:+ main_conllu_path) s).
Proof using Type.
  intros Hdir Himg Hdisk. rewrite main_paths.
  unfold mbind at 1. unfold IO_bind at 1.
  by rewrite (read_missing_run main_conllu_path s Hdir Himg Hdisk).
Qed.

(** X19: when the input file parses and the operating system accepts the
    output paths, [main] returns normally: the graph of the first sentence
    is on the heap, its picture, with a marker for every node, is stored
    under [<base>/graphs/dependency_graph_6308-68359-0026.png], and the log
    has the line of the loader followed by the line of the renderer.  The
    directories made are those of [os.makedirs]; when the base directory,
    which holds the input, is there, that is the output directory alone. *)
Theorem main_renders_first_sentence (s : System (Pos := Pos) (Rng := Rng))
    text first rest :
  main_conllu_path ∉ fs_dirs (world s) →
  fs_files (world s) !! main_conllu_path = None →
  disk s !! main_conllu_path = Some text →
  parse_incr text = inr (first :: rest) →
  refusal main_output_dir (world s) = None →
  refusal main_output_path (world s) = None →
  ∃ G fig w',
    main fruchterman_reingold center parse_incr image_text s
    = (Returned tt, {| disk := disk s; heap := heap s ++ [G]; world := w' |})
    ∧ build_dependency_graph first (heap s)
      = (Ok (List.length (heap s)), heap s ++ [G])
    ∧ fs_files w' !! main_output_path
      = Some {| img_figure := fig; img_format := "png"; img_dpi := 300 |}
    ∧ (∀ n, n ∈ marker_nodes fig ↔ is_Some (node G !! n))
    ∧ fs_dirs w'
      = list_to_set (makedirs_creates main_output_dir (world s)) ∪ fs_dirs (world s)
    ∧ (base_path ∈ fs_dirs (world s) →
       fs_dirs w' = {[main_output_dir]} ∪ fs_dirs (world s))
    ∧ log w' = log (world s)
               ++ [(INFO, "Parsed CoNLL-U file: " +:+ main_conllu_path);
                   (INFO, "Saved graph to " +:+ main_output_path)].
Proof using Type.
  intros Hdir Himg Hdisk Hparse Hout Hpath.
  rewrite (main_after_read s text first rest) by done.
  destruct (visualize_graph_ok (build_graph first) main_sent_id main_output_dir
              (set_log (λ l, l ++ [(INFO, "Parsed CoNLL-U file: " +:+ main_conllu_path)])
                 (world s)))
    as (fig & r & Hrun & Hmark).
  { apply build_graph_wf. }
  { by rewrite (refusal_fs (world s)). }
  { by rewrite (refusal_fs (world s)). }
  eexists (build_graph first), fig, _.
  unfold in_world. cbn [world disk heap]. rewrite Hrun.
  split; [reflexivity|]. split; [apply build_dependency_graph_spec|].
  cbn [fs_files fs_dirs log set_log]. split; [apply lookup_insert_eq|].
  split; [done|].
  rewrite !(makedirs_creates_fs (world s)) by done.
  split; [done|]. split; [|by rewrite <-(assoc_L (++))].
  intros Hbase.
  rewrite (makedirs_creates_leaf (world s) main_output_dir base_path).
  - set_solver.
  - by vm_compute.
  - unfold path_exists. by rewrite bool_decide_eq_true_2.
Qed.

(** X20: when the input file parses but the output directory is refused,
    [main] raises the error of [os.makedirs]; the graph has been built and
    stays on the heap, no file is created, and the log has the line of the
    loader followed by the error line of the renderer.  No directory is
    made when the base directory, which holds the input, is there;
    otherwise what [os.makedirs] made above the refused part stays. *)
Theorem main_output_dir_refused (s : System (Pos := Pos) (Rng := Rng))
    text first rest strerror :
  main_conllu_path ∉ fs_dirs (world s) →
  fs_files (world s) !! main_conllu_path = None →
  disk s !! main_conllu_path = Some text →
  parse_incr text = inr (first :: rest) →
  refusal main_output_dir (world s) = Some strerror →
  ∃ G,
    build_dependency_graph first (heap s)
    = (Ok (List.length (heap s)), heap s ++ [G])
    ∧ main fruchterman_reingold center parse_incr image_text s
      = (Raised (Other (OSError strerror)),
         {| disk := disk s; heap := heap s ++ [G];
            world :=
              set_log (λ l, l ++ [(INFO, "Parsed CoNLL-U file: " +:+ main_conllu_path);
                                  (ERROR, "Error visualizing graph: " +:+ strerror)])
                (set_dirs
                   (λ dirs, list_to_set (makedirs_keeps main_output_dir (world s))
                            ∪ dirs)
                   (world s)) |})
    ∧ (base_path ∈ fs_dirs (world s) →
       makedirs_keeps main_output_dir (world s) = []).
Proof using Type.
  intros Hdir Himg Hdisk Hparse Hout.
  exists (build_graph first). split; [apply build_dependency_graph_spec|]. split.
  - rewrite (main_after_read s text first rest) by done.
    unfold in_world. cbn [world disk heap].
    rewrite (visualize_graph_refused_dir fruchterman_reingold center _ _ _ _ strerror)
      by (by rewrite (refusal_fs (world s))).
    rewrite (makedirs_keeps_fs (world s)) by done.
    unfold set_log, set_dirs.
    cbn [fs_dirs fs_files os_refuses screen figures log rng].
    by rewrite <-(assoc_L (++)).
  - intros Hbase. unfold makedirs_keeps.
    rewrite (makedirs_creates_leaf (world s) main_output_dir base_path).
    + by rewrite filter_cons_False, filter_nil by (by rewrite Hout).
    + by vm_compute.
    + unfold path_exists. by rewrite bool_decide_eq_true_2.
Qed.
End ProgramResults.

(** ** The loader and the program on the example systems *)

(** In the project the base directory is there: [main] has only the
    output directory to make. *)
Example main_makes_output_dir_only :
  makedirs_parent main_output_dir = Some base_path
  ∧ makedirs_creates main_output_dir (world project_system) = [main_output_dir]
  ∧ makedirs_keeps main_output_dir (world locked_system) = [].
Proof. by repeat split. Qed.

Lemma read_conllu_file_missing_witness :
  read_conllu_file example_parser no_text "a.conllu" (example_system ∅)
  = (Raised (FileNotFoundError ("CoNLL-U file not found: " +:+ "a.conllu")),
     logged (ERROR, "Error reading CoNLL-U file: "
                    +:+ "CoNLL-U file not found: " +:+ "a.conllu")
       (example_system ∅)).
Proof.
  apply (read_conllu_file_missing example_parser no_text "a.conllu"
           (example_system ∅)).
  - apply not_elem_of_empty.
  - reflexivity.
  - reflexivity.
Defined.

Lemma read_conllu_file_first_sentence_witness :
  read_conllu_file example_parser no_text "a.conllu"
    (example_system {[ "a.conllu" := "1 Dogs" ]})
  = (Returned dogs_run,
     logged (INFO, "Parsed CoNLL-U file: " +:+ "a.conllu")
       (example_system {[ "a.conllu" := "1 Dogs" ]})).
Proof.
  apply (read_conllu_file_first_sentence example_parser no_text "a.conllu"
           (example_system {[ "a.conllu" := "1 Dogs" ]}) "1 Dogs" dogs_run
           [dangling]).
  - apply not_elem_of_empty.
  - reflexivity.
  - reflexivity.
  - reflexivity.
Defined.

Lemma read_conllu_file_no_sentences_witness :
  read_conllu_file example_parser no_text "a.conllu"
    (example_system {[ "a.conllu" := "" ]})
  = (Raised (ValueError ("No sentences found in " +:+ "a.conllu")),
     logged (ERROR, "Error reading CoNLL-U file: "
                    +:+ "No sentences found in " +:+ "a.conllu")
       (example_system {[ "a.conllu" := "" ]})).
Proof.
  apply (read_conllu_file_no_sentences example_parser no_text "a.conllu"
           (example_system {[ "a.conllu" := "" ]}) "").
  - apply not_elem_of_empty.
  - reflexivity.
  - reflexivity.
  - reflexivity.
Defined.

Lemma read_conllu_file_parser_error_witness :
  read_conllu_file failing_parser no_text "a.conllu"
    (example_system {[ "a.conllu" := "1 Dogs" ]})
  = (Raised (ParseException "Invalid line format, line must contain either tabs or two spaces."),
     logged (ERROR, "Error reading CoNLL-U file: "
                    +:+ str_py (ParseException "Invalid line format, line must contain either tabs or two spaces."))
       (example_system {[ "a.conllu" := "1 Dogs" ]})).
Proof.
  apply (read_conllu_file_parser_error failing_parser no_text "a.conllu"
           (example_system {[ "a.conllu" := "1 Dogs" ]}) "1 Dogs").
  - apply not_elem_of_empty.
  - reflexivity.
  - reflexivity.
  - reflexivity.
Defined.

Lemma main_missing_file_witness :
  main no_core tt example_parser no_text (example_system ∅)
  = (Raised (FileNotFoundError ("CoNLL-U file not found: " +:+ main_conllu_path)),
     logged (ERROR, "Error reading CoNLL-U file: "
                    +:+ "CoNLL-U file not found: " +:+ main_conllu_path)
       (example_system ∅)).
Proof.
  apply (main_missing_file no_core tt example_parser no_text (example_system ∅)).
  - apply not_elem_of_empty.
  - reflexivity.
  - reflexivity.
Defined.

Lemma main_renders_first_sentence_witness :
  ∃ G fig w',
    main no_core tt example_parser no_text
      project_system
    = (Returned tt,
       {| disk := {[ main_conllu_path := "1 Dogs" ]}; heap := [] ++ [G];
          world := w' |})
    ∧ build_dependency_graph dogs_run [] = (Ok 0%nat, [] ++ [G])
    ∧ fs_files w' !! main_output_path
      = Some {| img_figure := fig; img_format := "png"; img_dpi := 300 |}
    ∧ (∀ n, n ∈ marker_nodes fig ↔ is_Some (node G !! n))
    ∧ fs_dirs w'
      = list_to_set (makedirs_creates main_output_dir (world project_system))
        ∪ fs_dirs (world project_system)
    ∧ (base_path ∈ fs_dirs (world project_system) →
       fs_dirs w' = {[main_output_dir]} ∪ fs_dirs (world project_system))
    ∧ log w' = log (world project_system)
               ++ [(INFO, "Parsed CoNLL-U file: " +:+ main_conllu_path);
                   (INFO, "Saved graph to " +:+ main_output_path)].
Proof.
  refine (main_renders_first_sentence no_core tt example_parser no_text
            project_system "1 Dogs" dogs_run
            [dangling] _ _ _ _ _ _).
  - by apply (bool_decide_unpack _).
  - reflexivity.
  - apply lookup_singleton_eq.
  - reflexivity.
  - reflexivity.
  - reflexivity.
Defined.

Lemma main_output_dir_refused_witness :
  ∃ G,
    build_dependency_graph dogs_run [] = (Ok 0%nat, [] ++ [G])
    ∧ main no_core tt example_parser no_text locked_system
      = (Raised (Other (OSError "[Errno 13] Permission denied")),
         {| disk := disk locked_system; heap := [] ++ [G];
            world :=
              set_log (λ l, l ++ [(INFO, "Parsed CoNLL-U file: " +:+ main_conllu_path);
                                  (ERROR, "Error visualizing graph: "
                                          +:+ "[Errno 13] Permission denied")])
                (set_dirs
                   (λ dirs, list_to_set (makedirs_keeps main_output_dir
                                           (world locked_system)) ∪ dirs)
                   (world locked_system)) |})
    ∧ (base_path ∈ fs_dirs (world locked_system) →
       makedirs_keeps main_output_dir (world locked_system) = []).
Proof.
  refine (main_output_dir_refused no_core tt example_parser no_text locked_system
            "1 Dogs" dogs_run [dangling] "[Errno 13] Permission denied" _ _ _ _ _).
  - by apply (bool_decide_unpack _).
  - reflexivity.
  - apply lookup_singleton_eq.
  - reflexivity.
  - by vm_compute.
Defined.
